(** * A shallow embedding of [reflectivity_ui.interfaces.data_manager.DataManager]

    The data manager keeps a FIFO cache of loaded measurements ([NexusData]
    objects), the angle-ordered reduction list, the direct beam list, and the
    active selection.  Python objects live in a heap addressed by identifiers,
    so that identity ([is], the default [==] of [NexusData]) and aliasing
    between the cache, the lists and the active selection are explicit.
    Exceptions are modelled with a small error monad.  A float array is a
    list of rationals, the exact values of its doubles: numpy's comparisons
    are exact, and the product [r.max() * 0.05] of [get_trim_values] is
    rounded to a double as float64 multiplication does. *)

From Stdlib Require Import ZArith QArith String Ascii List Lia Lqa Sorted Permutation.
From stdpp Require Import base gmap.
Import ListNotations.



(* ------------------------------------------------------------------ *)
(** ** Exceptions and the error monad *)

Inductive exn :=
  | ValueError
  | TypeError
  | IndexError
  | KeyError
  | AttributeError
  | NameError
  | LoadError.

Inductive result (A : Type) : Type :=
  | Ok (a : A)
  | Err (e : exn).
Arguments Ok {A} a.
Arguments Err {A} e.

Definition rbind {A B} (m : result A) (k : A -> result B) : result B :=
  match m with
  | Ok a => k a
  | Err e => Err e
  end.

Notation "'let!' x ':=' m 'in' k" := (rbind m (fun x => k))
  (at level 200, x name, m at level 100, k at level 200, right associativity).

(* ------------------------------------------------------------------ *)
(** ** Python values and [int()] *)

(** Run identifiers and normalization references are Python ints, strings
    or [None]. *)
Inductive pyval :=
  | PyNone
  | PyInt (z : Z)
  | PyStr (s : string).

(** Python's [==] on these values: an int never equals a string. *)
Definition py_eq (a b : pyval) : bool :=
  match a, b with
  | PyNone, PyNone => true
  | PyInt x, PyInt y => Z.eqb x y
  | PyStr x, PyStr y => String.eqb x y
  | _, _ => false
  end.

Definition is_space (c : ascii) : bool :=
  match nat_of_ascii c with
  | 32 | 9 | 10 | 11 | 12 | 13 => true
  | _ => false
  end.

Definition is_digit (c : ascii) : bool :=
  (48 <=? nat_of_ascii c)%nat && (nat_of_ascii c <=? 57)%nat.

Definition digit_value (c : ascii) : Z := Z.of_nat (nat_of_ascii c - 48).

Fixpoint drop_spaces (l : list ascii) : list ascii :=
  match l with
  | c :: l' => if is_space c then drop_spaces l' else l
  | [] => []
  end.

(** Decimal digits, single underscores allowed between digits. *)
Fixpoint parse_digits (l : list ascii) (acc : Z) (prev_digit : bool) : option Z :=
  match l with
  | [] => if prev_digit then Some acc else None
  | c :: l' =>
      if is_digit c then parse_digits l' (acc * 10 + digit_value c) true
      else if Ascii.eqb c "_" && prev_digit then parse_digits l' acc false
      else None
  end.

(** [int(s)] for an ASCII string: surrounding whitespace, an optional sign,
    then decimal digits. *)
Definition parse_int (s : string) : option Z :=
  let l := rev (drop_spaces (rev (drop_spaces (list_ascii_of_string s)))) in
  match l with
  | "-"%char :: l' => option_map Z.opp (parse_digits l' 0 false)
  | "+"%char :: l' => parse_digits l' 0 false
  | _ => parse_digits l 0 false
  end.

(** [int(v)]: [ValueError] on an unparsable string, [TypeError] on [None]. *)
Definition py_int (v : pyval) : result Z :=
  match v with
  | PyInt z => Ok z
  | PyStr s => match parse_int s with Some z => Ok z | None => Err ValueError end
  | PyNone => Err TypeError
  end.

(** [try: x = int(v) except (ValueError, TypeError): x = v] *)
Definition int_or_keep (v : pyval) : pyval :=
  match py_int v with
  | Ok z => PyInt z
  | Err _ => v
  end.

Definition ascii_lower (c : ascii) : ascii :=
  let n := nat_of_ascii c in
  if (65 <=? n)%nat && (n <=? 90)%nat then ascii_of_nat (n + 32) else c.

(** Python's [str.lower] on ASCII text. *)
Definition lower (s : string) : string :=
  string_of_list_ascii (map ascii_lower (list_ascii_of_string s)).

(* ------------------------------------------------------------------ *)
(** ** Data model *)

(** The fields of [Configuration] the data manager reads or writes. *)
Record config := mk_config {
  normalization : pyval;
  match_direct_beam : bool;
  cut_first_n_points : Z;
  cut_last_n_points : Z
}.

(** [CrossSectionData]: one polarization channel.  [xs_q] is [None] until
    the reflectivity has been computed.  [xs_two_theta] is the [two_theta]
    run property of the channel's reflectivity workspace. *)
Record channel := mk_channel {
  xs_name : string;
  xs_label : string;
  xs_number : string;
  xs_config : config;
  xs_q : option (list Q);
  xs_r : list Q;
  xs_two_theta : Q
}.

(** [NexusData]: a loaded measurement; [cross_sections] is an ordered dict. *)
Record measurement := mk_measurement {
  m_path : string;
  m_number : pyval;
  m_xs : list (string * channel)
}.

Fixpoint dict_get {A} (k : string) (d : list (string * A)) : option A :=
  match d with
  | [] => None
  | (k', v) :: d' => if String.eqb k k' then Some v else dict_get k d'
  end.

Definition keys {A} (d : list (string * A)) : list string := map fst d.

(** Python indexing [l[i]], negative indices counting from the end. *)
Definition py_index {A} (l : list A) (i : Z) : result A :=
  let j := if (i <? 0)%Z then (Z.of_nat (length l) + i)%Z else i in
  if (j <? 0)%Z then Err IndexError
  else match nth_error l (Z.to_nat j) with
       | Some a => Ok a
       | None => Err IndexError
       end.

(** The [DataManager] object. *)
Record dm := mk_dm {
  heap : gmap nat measurement;
  next_id : nat;
  current_directory : string;
  current_file_name : option string;
  nexus_data : option nat;
  active_channel : option (nat * string);
  cache : list nat;
  reduction_list : list nat;
  direct_beam_list : list nat;
  reduction_states : list string
}.

Definition MAX_CACHE : nat := 50.

(** Attribute assignment on the [DataManager] object. *)
Definition set_heap (s : dm) (h : gmap nat measurement) : dm :=
  mk_dm h (next_id s) (current_directory s) (current_file_name s) (nexus_data s)
    (active_channel s) (cache s) (reduction_list s) (direct_beam_list s)
    (reduction_states s).

Definition set_next_id (s : dm) (n : nat) : dm :=
  mk_dm (heap s) n (current_directory s) (current_file_name s) (nexus_data s)
    (active_channel s) (cache s) (reduction_list s) (direct_beam_list s)
    (reduction_states s).

Definition set_current_file (s : dm) (d : string) (f : option string) : dm :=
  mk_dm (heap s) (next_id s) d f (nexus_data s)
    (active_channel s) (cache s) (reduction_list s) (direct_beam_list s)
    (reduction_states s).

Definition set_nexus_data (s : dm) (n : option nat) : dm :=
  mk_dm (heap s) (next_id s) (current_directory s) (current_file_name s) n
    (active_channel s) (cache s) (reduction_list s) (direct_beam_list s)
    (reduction_states s).

Definition set_active_channel (s : dm) (a : option (nat * string)) : dm :=
  mk_dm (heap s) (next_id s) (current_directory s) (current_file_name s) (nexus_data s)
    a (cache s) (reduction_list s) (direct_beam_list s)
    (reduction_states s).

Definition set_cache (s : dm) (c : list nat) : dm :=
  mk_dm (heap s) (next_id s) (current_directory s) (current_file_name s) (nexus_data s)
    (active_channel s) c (reduction_list s) (direct_beam_list s)
    (reduction_states s).

Definition set_reduction_list (s : dm) (l : list nat) : dm :=
  mk_dm (heap s) (next_id s) (current_directory s) (current_file_name s) (nexus_data s)
    (active_channel s) (cache s) l (direct_beam_list s)
    (reduction_states s).

Definition set_direct_beam_list (s : dm) (l : list nat) : dm :=
  mk_dm (heap s) (next_id s) (current_directory s) (current_file_name s) (nexus_data s)
    (active_channel s) (cache s) (reduction_list s) l
    (reduction_states s).

Definition set_reduction_states (s : dm) (l : list string) : dm :=
  mk_dm (heap s) (next_id s) (current_directory s) (current_file_name s) (nexus_data s)
    (active_channel s) (cache s) (reduction_list s) (direct_beam_list s) l.

(** Dereferencing an object held by the data manager. *)
Definition deref (s : dm) (id : nat) : result measurement :=
  match heap s !! id with
  | Some m => Ok m
  | None => Err AttributeError
  end.

(** [self.active_channel], a reference to a channel of a measurement. *)
Definition get_active_xs (s : dm) : result channel :=
  match active_channel s with
  | None => Err AttributeError
  | Some (id, k) =>
      let! m := deref s id in
      match dict_get k (m_xs m) with
      | Some c => Ok c
      | None => Err KeyError
      end
  end.

Inductive param :=
  | P_normalization (v : pyval)
  | P_cut_first_n_points (z : Z)
  | P_cut_last_n_points (z : Z).

Definition set_config_param (p : param) (c : config) : config :=
  match p with
  | P_normalization v =>
      mk_config v (match_direct_beam c) (cut_first_n_points c) (cut_last_n_points c)
  | P_cut_first_n_points z =>
      mk_config (normalization c) (match_direct_beam c) z (cut_last_n_points c)
  | P_cut_last_n_points z =>
      mk_config (normalization c) (match_direct_beam c) (cut_first_n_points c) z
  end.

Definition set_channel_param (p : param) (c : channel) : channel :=
  mk_channel (xs_name c) (xs_label c) (xs_number c) (set_config_param p (xs_config c))
    (xs_q c) (xs_r c) (xs_two_theta c).

(** Modelled from the spec: [NexusData.set_parameter] (not in this file).
    It writes the parameter into the configuration of every channel of the
    measurement, and reports the update as done. *)
Definition set_measurement_param (p : param) (m : measurement) : measurement :=
  mk_measurement (m_path m) (m_number m)
    (map (fun kc => (fst kc, set_channel_param p (snd kc))) (m_xs m)).

Definition set_parameter (s : dm) (id : nat) (p : param) : result (bool * dm) :=
  let! m := deref s id in
  let m' := set_measurement_param p m in
  Ok (true, set_heap s (<[id := m']> (heap s))).

(** [DataManager.set_channel] *)
Definition set_channel (s : dm) (index : nat) : bool * dm :=
  match nexus_data s with
  | None => (false, s)
  | Some id =>
      match heap s !! id with
      | None => (false, s)
      | Some m =>
          let channels := keys (m_xs m) in
          match nth_error channels index with
          | Some k => (true, set_active_channel s (Some (id, k)))
          | None =>
              match channels with
              | [] => (false, s)
              | k0 :: _ => (false, set_active_channel s (Some (id, k0)))
              end
          end
      end
  end.

(** The argument of [_find_direct_beam]: a [NexusData] or a
    [CrossSectionData]. *)
Inductive db_target :=
  | OfMeasurement (m : measurement)
  | OfChannel (c : channel).

(** The loop of [_find_direct_beam] over [self.direct_beam_list]; the last
    matching item wins. *)
Fixpoint scan_direct_beams (s : dm) (norm : pyval) (items : list nat)
    (direct_beam : option channel) : result (option channel) :=
  match items with
  | [] => Ok direct_beam
  | id :: rest =>
      let! item := deref s id in
      let run_number := int_or_keep norm in
      let item_number := int_or_keep (m_number item) in
      if py_eq item_number run_number then
        match m_xs item with
        | [] => scan_direct_beams s norm rest direct_beam
        | (_, c) :: _ => scan_direct_beams s norm rest (Some c)
        end
      else scan_direct_beams s norm rest direct_beam
  end.

(** [DataManager._find_direct_beam] *)
Definition find_direct_beam (s : dm) (t : db_target) : result (option channel) :=
  let data_xs :=
    match t with
    | OfMeasurement m =>
        match m_xs m with
        | [] => None
        | (_, c) :: _ => Some c
        end
    | OfChannel c => Some c
    end in
  match data_xs with
  | None => Ok None
  | Some xs =>
      match normalization (xs_config xs) with
      | PyNone => Ok None
      | norm => scan_direct_beams s norm (direct_beam_list s) None
      end
  end.

(* ------------------------------------------------------------------ *)
(** ** External collaborators

    The code the data manager calls but that lives outside this file:
    path canonicalisation ([FilePath]), run-number parsing ([RunNumbers]),
    the instrument's direct beam predicate, the loader and the reflectivity
    calculation.  Every theorem below holds for all of them. *)
Record externals := mk_externals {
  (** [FilePath(file_path, sort=True).path] *)
  canonical_path : string -> string;
  (** [FilePath(file_path).split()]: directory and file name *)
  split_path : string -> string * string;
  (** [RunNumbers(number).numbers] *)
  run_numbers : string -> list Z;
  (** [configuration.instrument.direct_beam_match(active, candidate, skip_slits)] *)
  direct_beam_match : channel -> channel -> bool -> bool;
  (** [NexusData(file_path, configuration)] followed by [.load()]: given the
      caller's configuration, the configuration as the loader leaves it, the
      run number and the cross sections of the new measurement. *)
  nexus_load : string -> config -> result (config * pyval * list (string * channel));
  (** [NexusData.calculate_reflectivity(direct_beam=...)]: new channel data. *)
  reflect : list (string * channel) -> option channel -> result (list (string * channel))
}.

Definition dist (a b : Z) : Z := Z.abs (a - b).

(** [if closest is None: closest = n
     elif abs(n - active) < abs(closest - active): closest = n] *)
Definition update_closest (closest : option Z) (n active : Z) : option Z :=
  match closest with
  | None => Some n
  | Some c => if (dist n active <? dist c active)%Z then Some n else closest
  end.

(** First loop of [find_best_direct_beam]: each item's number is converted
    with [int()] (no exception handler).  Also returns the last value of the
    loop variable [item_number]. *)
Fixpoint strict_pass (E : externals) (s : dm) (ac : channel) (active : Z)
    (items : list nat) (closest item_number : option Z)
    : result (option Z * option Z) :=
  match items with
  | [] => Ok (closest, item_number)
  | id :: rest =>
      let! item := deref s id in
      let! n := py_int (m_number item) in
      match m_xs item with
      | [] => strict_pass E s ac active rest closest (Some n)
      | (_, ch) :: _ =>
          if direct_beam_match E ac ch false
          then strict_pass E s ac active rest (update_closest closest n active) (Some n)
          else strict_pass E s ac active rest closest (Some n)
      end
  end.

(** Second loop of [find_best_direct_beam] ([skip_slits=True]).  The loop
    body does not assign [item_number]: it reads the value left by the first
    loop. *)
Fixpoint relaxed_pass (E : externals) (s : dm) (ac : channel) (active : Z)
    (items : list nat) (closest item_number : option Z) : result (option Z) :=
  match items with
  | [] => Ok closest
  | id :: rest =>
      let! item := deref s id in
      match m_xs item with
      | [] => relaxed_pass E s ac active rest closest item_number
      | (_, ch) :: _ =>
          if direct_beam_match E ac ch true then
            let! n := match item_number with
                      | Some n => Ok n
                      | None => Err NameError
                      end in
            relaxed_pass E s ac active rest (update_closest closest n active) item_number
          else relaxed_pass E s ac active rest closest item_number
      end
  end.

(** The value of [closest] at the end of [find_best_direct_beam]. *)
Definition best_direct_beam (E : externals) (s : dm) : result (option Z) :=
  let! ac := get_active_xs s in
  let! active := match run_numbers E (xs_number ac) with
                 | [] => Err IndexError
                 | n :: _ => Ok n
                 end in
  let! r := strict_pass E s ac active (direct_beam_list s) None None in
  let (closest, item_number) := r in
  match closest with
  | Some _ => Ok closest
  | None => relaxed_pass E s ac active (direct_beam_list s) None item_number
  end.

(** [DataManager.find_best_direct_beam] *)
Definition find_best_direct_beam (E : externals) (s : dm) : result (bool * dm) :=
  let! closest := best_direct_beam E s in
  match closest with
  | None => Ok (false, s)
  | Some c =>
      match nexus_data s with
      | None => Err AttributeError
      | Some id => set_parameter s id (P_normalization (PyInt c))
      end
  end.

(* ------------------------------------------------------------------ *)
(** ** Loading with the cache *)

(** [find_data_in_reduction_list] / [find_data_in_direct_beam_list]: the
    first index holding the same object. *)
Fixpoint find_data (x : nat) (l : list nat) : option nat :=
  match l with
  | [] => None
  | y :: l' =>
      if Nat.eqb x y then Some 0
      else option_map S (find_data x l')
  end.

(** The cache loop of [load]: the first index whose measurement has the
    given file path, with the object found there. *)
Fixpoint cache_search (s : dm) (p : string) (c : list nat) : result (option (nat * nat)) :=
  match c with
  | [] => Ok None
  | id :: c' =>
      let! m := deref s id in
      if String.eqb (m_path m) p then Ok (Some (0, id))
      else let! r := cache_search s p c' in
           Ok (option_map (fun r => (S (fst r), snd r)) r)
  end.

(** Python's [list.pop(i)] for a valid index. *)
Fixpoint remove_nth {A} (i : nat) (l : list A) : list A :=
  match l, i with
  | [], _ => []
  | _ :: l', 0 => l'
  | x :: l', S i' => x :: remove_nth i' l'
  end.

(** [while len(self._cache) >= self.MAX_CACHE: self._cache.pop(0)]; each
    round removes one entry, so [length c] rounds suffice. *)
Fixpoint evict (fuel : nat) (c : list nat) : list nat :=
  match fuel with
  | 0 => c
  | S f => if (MAX_CACHE <=? length c)%nat then evict f (tl c) else c
  end.

(** The eviction loop followed by [self._cache.append(nexus_data)]. *)
Definition cache_push (c : list nat) (x : nat) : list nat :=
  evict (length c) c ++ [x].

Definition replace_at (i : option nat) (x : nat) (l : list nat) : list nat :=
  match i with
  | Some j => <[j := x]> l
  | None => l
  end.

(** [self.calculate_reflectivity()] inside [try/except]: a failure leaves
    the measurement as it was. *)
Definition calculate_reflectivity_caught (E : externals) (s : dm) (id : nat) : dm :=
  match heap s !! id with
  | None => s
  | Some m =>
      match find_direct_beam s (OfMeasurement m) with
      | Err _ => s
      | Ok db =>
          match reflect E (m_xs m) db with
          | Err _ => s
          | Ok xs => set_heap s (<[id := mk_measurement (m_path m) (m_number m) xs]> (heap s))
          end
      end
  end.

Definition with_normalization (c : config) (v : pyval) : config :=
  set_config_param (P_normalization v) c.

(** What remains of [load] once the measurement object [id] is known. *)
Definition load_finish (E : externals) (s : dm) (p : string) (id : nat)
    (is_from_cache : bool) (conf : config)
    (reduction_list_id direct_beam_list_id : option nat) : result (bool * dm * config) :=
  let s := set_nexus_data s (Some id) in
  let (directory, file_name) := split_path E p in
  let s := set_current_file s directory (Some file_name) in
  let s := snd (set_channel s 0) in
  if is_from_cache then Ok (true, s, conf)
  else
    let! r := (if (match normalization conf with PyNone => true | _ => false end)
                  && match_direct_beam conf
               then find_best_direct_beam E s else Ok (false, s)) in
    let s := snd r in
    let s := set_reduction_list s (replace_at reduction_list_id id (reduction_list s)) in
    let s := set_direct_beam_list s (replace_at direct_beam_list_id id (direct_beam_list s)) in
    let s := calculate_reflectivity_caught E s id in
    let s := set_cache s (cache_push (cache s) id) in
    Ok (false, s, conf).

(** The branch of [load] that builds a new [NexusData]: the caller's
    [configuration.normalization] is set to [None] before the loader runs. *)
Definition load_fresh (E : externals) (s : dm) (p : string) (conf : config)
    (reduction_list_id direct_beam_list_id : option nat) : result (bool * dm * config) :=
  let conf := with_normalization conf PyNone in
  let! r := nexus_load E p conf in
  let '(conf', number, xs) := r in
  let id := next_id s in
  let s := set_next_id (set_heap s (<[id := mk_measurement p number xs]> (heap s))) (S id) in
  load_finish E s p id false conf' reduction_list_id direct_beam_list_id.

(** [DataManager.load]: returns [is_from_cache], the new state and the
    caller's configuration object as the call leaves it. *)
Definition load (E : externals) (s : dm) (file_path : string) (conf : config)
    (force : bool) : result (bool * dm * config) :=
  let p := canonical_path E file_path in
  let! found := cache_search s p (cache s) in
  match found with
  | Some (i, id) =>
      if force then
        let reduction_list_id := find_data id (reduction_list s) in
        let direct_beam_list_id := find_data id (direct_beam_list s) in
        load_fresh E (set_cache s (remove_nth i (cache s))) p conf
          reduction_list_id direct_beam_list_id
      else load_finish E s p id true conf None None
  | None => load_fresh E s p conf None None
  end.

(* ------------------------------------------------------------------ *)
(** ** The reduction list *)

(** [self.data_sets]: the cross sections of the active measurement. *)
Definition active_data_sets (s : dm) : result (list (string * channel)) :=
  match nexus_data s with
  | None => Err AttributeError
  | Some id => let! m := deref s id in Ok (m_xs m)
  end.

(** [DataManager.is_active_data_compatible] *)
Definition is_active_data_compatible (s : dm) : result bool :=
  match reduction_list s with
  | [] => Ok true
  | _ =>
      let! ds := active_data_sets s in
      if negb (Nat.eqb (length (reduction_states s)) (length (keys ds))) then Ok false
      else Ok (forallb (fun k => existsb (String.eqb k) (reduction_states s)) (keys ds))
  end.

(** Modelled from the spec: [get_reflectivity_workspace_group()[0]] and its
    [two_theta] run property (the [NexusData] method is not in this file):
    the scattering angle of the measurement's first channel. *)
Definition ws_two_theta (m : measurement) : result Q :=
  match m_xs m with
  | [] => Err IndexError
  | (_, c) :: _ => Ok (xs_two_theta c)
  end.

(** The insertion loop of [add_active_to_reduction]: insert before the
    first item whose angle is [>=] [theta], append otherwise. *)
Fixpoint insert_by_theta (s : dm) (x : nat) (theta : Q) (l : list nat) : result (list nat) :=
  match l with
  | [] => Ok [x]
  | y :: l' =>
      let! m := deref s y in
      let! t := ws_two_theta m in
      if Qle_bool theta t then Ok (x :: y :: l')
      else let! r := insert_by_theta s x theta l' in Ok (y :: r)
  end.

(** [DataManager.add_active_to_reduction] *)
Definition add_active_to_reduction (s : dm) : result (bool * dm) :=
  match nexus_data s with
  | None => Err AttributeError
  | Some id =>
      if existsb (Nat.eqb id) (reduction_list s) then Ok (false, s)
      else
        let! ok := is_active_data_compatible s in
        if ok then
          let! m := deref s id in
          let s := match reduction_list s with
                   | [] => set_reduction_states s (keys (m_xs m))
                   | _ => s
                   end in
          let! theta := ws_two_theta m in
          let! l := insert_by_theta s id theta (reduction_list s) in
          Ok (true, set_reduction_list s l)
        else Ok (false, s)
  end.

(** The scattering angles of the reduction list, in list order. *)
Fixpoint angles (s : dm) (l : list nat) : result (list Q) :=
  match l with
  | [] => Ok []
  | y :: l' =>
      let! m := deref s y in
      let! t := ws_two_theta m in
      let! r := angles s l' in
      Ok (t :: r)
  end.

(** The angle list after [insert_by_theta]: [theta] goes before the first
    angle it does not exceed. *)
Fixpoint qinsert (theta : Q) (ts : list Q) : list Q :=
  match ts with
  | [] => [theta]
  | t :: r => if Qle_bool theta t then theta :: t :: r else t :: qinsert theta r
  end.

Definition angles_sorted (s : dm) : Prop :=
  match angles s (reduction_list s) with
  | Ok ts => Sorted Qle ts
  | Err _ => False
  end.

(** A sequence of additions: each measurement is made active, then added. *)
Fixpoint add_all (s : dm) (ids : list nat) : result (list bool * dm) :=
  match ids with
  | [] => Ok ([], s)
  | id :: ids' =>
      let! r := add_active_to_reduction (set_nexus_data s (Some id)) in
      let! r' := add_all (snd r) ids' in
      Ok (fst r :: fst r', snd r')
  end.

(* ------------------------------------------------------------------ *)
(** ** Trim values and overlap stripping *)

(** [np.max] of a non-empty array. *)
Definition np_max (r : list Q) : result Q :=
  match r with
  | [] => Err ValueError
  | x :: r' => Ok (fold_left (fun m y => if Qle_bool m y then y else m) r' x)
  end.

(** [np.where(pred(a))[0]]: the indices where [pred] holds, ascending. *)
Fixpoint np_where_from (pred : Q -> bool) (a : list Q) (i : Z) : list Z :=
  match a with
  | [] => []
  | x :: a' => if pred x then i :: np_where_from pred a' (i + 1) else np_where_from pred a' (i + 1)
  end.

Definition np_where (pred : Q -> bool) (a : list Q) : list Z := np_where_from pred a 0.

(** [2 ^ e] as a rational, for any integer [e]. *)
Definition pow2Q (e : Z) : Q :=
  if (0 <=? e)%Z then inject_Z (2 ^ e) else 1 # Z.to_pos (2 ^ (- e)).

(** For the positive rational [n / d], the exponent of the last mantissa
    bit of its binary64 representation: [floor (log2 (n / d)) - 52], at
    least [-1074] (subnormals). *)
Definition float_exponent (n : Z) (d : positive) : Z :=
  let e0 := (Z.log2 n - Z.log2 (Zpos d))%Z in
  let e := if (n * 2 ^ Z.max 0 (- e0) <? Zpos d * 2 ^ Z.max 0 e0)%Z then (e0 - 1)%Z else e0 in
  Z.max (e - 52) (-1074).

(** [n / d] rounded to a multiple of [2 ^ ex], to nearest, ties to even. *)
Definition round_at (n : Z) (d : positive) (ex : Z) : Q :=
  let num := (n * 2 ^ Z.max 0 (- ex))%Z in
  let den := (Zpos d * 2 ^ Z.max 0 ex)%Z in
  let qt := (num / den)%Z in
  let m := match Z.compare (2 * (num mod den)) den with
           | Lt => qt
           | Gt => (qt + 1)%Z
           | Eq => if Z.even qt then qt else (qt + 1)%Z
           end in
  inject_Z m * pow2Q ex.

(** IEEE 754 binary64 rounding, to nearest with ties to even, of a
    rational below the largest double in magnitude (the only products
    rounded here are a double times [0.05], which cannot overflow). *)
Definition round64 (x : Q) : Q :=
  match Qnum x with
  | Z0 => 0
  | Zpos n => round_at (Zpos n) (Qden x) (float_exponent (Zpos n) (Qden x))
  | Zneg n => - round_at (Zpos n) (Qden x) (float_exponent (Zpos n) (Qden x))
  end.

(** The double nearest to [0.05], the literal of [r.max() * 0.05]. *)
Definition float_0_05 : Q := 3602879701896397 # 72057594037927936.

(** [DataManager.get_trim_values]; [None] is Python's bare [return]. *)
Definition get_trim_values (s : dm) : result (option (Z * Z) * dm) :=
  match active_channel s with
  | None => Ok (None, s)
  | Some _ =>
      let! ac := get_active_xs s in
      match xs_q ac, normalization (xs_config ac) with
      | None, _ => Ok (None, s)
      | _, PyNone => Ok (None, s)
      | Some _, _ =>
          let! direct_beam := find_direct_beam s (OfChannel ac) in
          match direct_beam with
          | None => Ok (None, s)
          | Some db =>
              let r := xs_r db in
              let! mx := np_max r in
              let region := np_where (fun x => Qle_bool (round64 (mx * float_0_05)) x) r in
              let! p_0 := py_index region 0 in
              let! last := py_index region (-1) in
              let p_n := (Z.of_nat (length r) - last - 1)%Z in
              match nexus_data s with
              | None => Err AttributeError
              | Some id =>
                  let! r1 := set_parameter s id (P_cut_first_n_points p_0) in
                  let! r2 := set_parameter (snd r1) id (P_cut_last_n_points p_n) in
                  Ok (Some (p_0, p_n), snd r2)
              end
          end
      end
  end.

(** [item.cross_sections[xs]] *)
Definition xs_of (s : dm) (id : nat) (xs : string) : result channel :=
  let! m := deref s id in
  match dict_get xs (m_xs m) with
  | Some c => Ok c
  | None => Err KeyError
  end.

Definition q_of (c : channel) : result (list Q) :=
  match xs_q c with
  | Some q => Ok q
  | None => Err TypeError
  end.

(** The loop of [strip_overlap] over adjacent pairs. *)
Fixpoint strip_pairs (s : dm) (xs : string) (l : list nat) : result dm :=
  match l with
  | item :: ((next_item :: _) as rest) =>
      let! nc := xs_of s next_item xs in
      let end_idx := cut_first_n_points (xs_config nc) in
      let! ic := xs_of s item xs in
      let! iq := q_of ic in
      let! nq := q_of nc in
      let! qn := py_index nq end_idx in
      let overlap_idx := np_where (fun x => Qle_bool qn x) iq in
      let! s := match overlap_idx with
                | [] => Ok s
                | o :: _ =>
                    let n_points := (Z.of_nat (length iq) - o)%Z in
                    let! r := set_parameter s item (P_cut_last_n_points n_points) in
                    Ok (snd r)
                end in
      strip_pairs s xs rest
  | _ => Ok s
  end.

(** [DataManager.strip_overlap] *)
Definition strip_overlap (s : dm) : result dm :=
  if (length (reduction_list s) <? 2)%nat then Ok s
  else
    let! ac := get_active_xs s in
    strip_pairs s (xs_name ac) (reduction_list s).

(* ------------------------------------------------------------------ *)
(** ** Asymmetry states *)

Definition is_off_off (x : string) : bool :=
  String.eqb (lower x) "off_off" || String.eqb (lower x) "off-off".

Definition is_on_on (x : string) : bool :=
  String.eqb (lower x) "on_on" || String.eqb (lower x) "on-on".

(** The [++]/[--] label loop: it only reads [self.data_sets[item]], and its
    result is not used afterwards. *)
Fixpoint label_loop (ds : list (string * channel)) (states : list string)
    (p m : option string) : result (option string * option string) :=
  match states with
  | [] => Ok (p, m)
  | item :: rest =>
      match dict_get item ds with
      | None => Err KeyError
      | Some c =>
          let p := if String.eqb (xs_label c) "++" then Some item else p in
          let m := if String.eqb (xs_label c) "--" then Some item else m in
          label_loop ds rest p m
      end
  end.

(** [DataManager.determine_asymmetry_states] *)
Definition determine_asymmetry_states (s : dm) : result (option string * option string) :=
  let states := reduction_states s in
  let! pm :=
    match states with
    | [a; b] => Ok (if is_off_off a then (Some a, Some b) else (Some b, Some a))
    | _ =>
        let p_data := fold_left (fun acc item => if is_off_off item then Some item else acc) states None in
        let m_data := fold_left (fun acc item => if is_on_on item then Some item else acc) states None in
        match p_data, m_data with
        | Some _, Some _ => Ok (None, None)
        | _, _ =>
            (* [self.data_sets] is read by the loop body only *)
            let! _r := match states with
                       | [] => Ok (None, None)
                       | _ :: _ =>
                           let! ds := match nexus_data s with
                                      | None => Err TypeError
                                      | Some id => let! m := deref s id in Ok (m_xs m)
                                      end in
                           label_loop ds states None None
                       end in
            Ok (None, None)
        end
    end in
  match pm with
  | (None, None) =>
      match states with
      | a :: _ :: _ => Ok (Some a, Some (List.last states a))
      | _ => Ok (None, None)
      end
  | _ => Ok pm
  end.

(** A sequence of [load] calls: for each call, [is_from_cache] and the state
    after it; then the final state. *)
Fixpoint run_loads (E : externals) (s : dm) (calls : list (string * config * bool))
    : result (list (bool * dm) * dm) :=
  match calls with
  | [] => Ok ([], s)
  | (path, conf, force) :: rest =>
      let! r := load E s path conf force in
      let '(b, s1, _) := r in
      let! r' := run_loads E s1 rest in
      Ok ((b, s1) :: fst r', snd r')
  end.

(* ------------------------------------------------------------------ *)
(** ** The cache, the direct beam list and the active selection *)

(** [DataManager.get_cachesize] *)
Definition get_cachesize (s : dm) : nat := length (cache s).

(** [DataManager.clear_cache] *)
Definition clear_cache (s : dm) : dm := set_cache s [].

(** [DataManager.current_file]: the file path of the active data set. *)
Definition current_file (s : dm) : result (option string) :=
  match nexus_data s with
  | None => Ok None
  | Some id => let! m := deref s id in Ok (Some (m_path m))
  end.

(** [DataManager.add_active_to_normalization].  The lists of this model hold
    objects; with no active data set Python would append [None], which they
    cannot hold, so that call is refused here with [TypeError]. *)
Definition add_active_to_normalization (s : dm) : result (bool * dm) :=
  match nexus_data s with
  | None => Err TypeError
  | Some id =>
      if negb (existsb (Nat.eqb id) (direct_beam_list s))
      then Ok (true, set_direct_beam_list s (direct_beam_list s ++ [id]))
      else Ok (false, s)
  end.

(** [DataManager.remove_active_from_normalization]: the index of the first
    entry that is the active data set, popped; [-1] when there is none (no
    entry equals [None]). *)
Definition remove_active_from_normalization (s : dm) : Z * dm :=
  match nexus_data s with
  | None => ((-1)%Z, s)
  | Some id =>
      match find_data id (direct_beam_list s) with
      | Some i => (Z.of_nat i, set_direct_beam_list s (remove_nth i (direct_beam_list s)))
      | None => ((-1)%Z, s)
      end
  end.

(** [DataManager.clear_direct_beam_list] *)
Definition clear_direct_beam_list (s : dm) : dm := set_direct_beam_list s [].

(** The body shared by [set_active_data_from_reduction_list] and
    [set_active_data_from_direct_beam_list]: [index] is a Python int, so a
    negative one passes the check [index < len(l)] and [l[index]] counts
    from the end. *)
Definition set_active_data_from (l : list nat) (s : dm) (index : Z) : result dm :=
  if (index <? Z.of_nat (length l))%Z then
    let! id := py_index l index in
    Ok (snd (set_channel (set_nexus_data s (Some id)) 0))
  else Ok s.

(** [DataManager.set_active_data_from_reduction_list] *)
Definition set_active_data_from_reduction_list (s : dm) (index : Z) : result dm :=
  set_active_data_from (reduction_list s) s index.


(* ------------------------------------------------------------------ *)
(** ** Loading a reduced file *)

(** [run_file.split("+")] *)
Fixpoint split_plus_from (s : string) (cur : string) : list string :=
  match s with
  | EmptyString => [cur]
  | String ch rest =>
      if Ascii.eqb ch "+" then cur :: split_plus_from rest EmptyString
      else split_plus_from rest (cur ++ String ch EmptyString)
  end.

Definition split_plus (s : string) : list string := split_plus_from s EmptyString.

Section ReducedFile.

Variable E : externals.
(** [os.path.isfile] *)
Variable is_file : string -> bool.
(** [NexusData.update_configuration(conf)] *)
Variable update_configuration : measurement -> config -> measurement.
(** [quicknxs_io.read_reduced_file(file_path, configuration)]: the direct
    beam entries and the data entries, each [(r_id, run_file, conf)]. *)
Variable read_reduced_file : string -> option config ->
  result (list (pyval * string * config) * list (pyval * string * config)).

(** [DataManager.calculate_reflectivity()] with its default arguments, no
    exception handler: [_find_direct_beam(self._nexus_data)] then
    [nexus_data.calculate_reflectivity(direct_beam=...)]. *)
Definition calculate_reflectivity (s : dm) : result dm :=
  match nexus_data s with
  | None => Err AttributeError
  | Some id =>
      let! m := deref s id in
      let! db := find_direct_beam s (OfMeasurement m) in
      let! xs := reflect E (m_xs m) db in
      Ok (set_heap s (<[id := mk_measurement (m_path m) (m_number m) xs]> (heap s)))
  end.

(** [self._nexus_data.update_configuration(conf)] *)
Definition update_active_configuration (s : dm) (conf : config) : result dm :=
  match nexus_data s with
  | None => Err AttributeError
  | Some id =>
      let! m := deref s id in
      Ok (set_heap s (<[id := update_configuration m conf]> (heap s)))
  end.

(** [configuration.normalization = None] on the caller's [configuration]
    argument, [None] by default. *)
Definition reset_normalization (configuration : option config) : result (option config) :=
  match configuration with
  | None => Err AttributeError
  | Some c => Ok (Some (with_normalization c PyNone))
  end.

(** The loop of [load_data_from_reduced_file] over the direct beam entries. *)
Fixpoint load_db_files (s : dm) (configuration : option config)
    (db_files : list (pyval * string * config)) : result (dm * option config) :=
  match db_files with
  | [] => Ok (s, configuration)
  | (r_id, run_file, conf) :: rest =>
      if is_file run_file then
        let! r := load E s run_file conf false in
        let '(is_from_cache, s, _) := r in
        let! r := (if is_from_cache then
                     let! configuration := reset_normalization configuration in
                     let! s := update_active_configuration s conf in
                     Ok (s, configuration)
                   else Ok (s, configuration)) in
        let '(s, configuration) := r in
        let! r := add_active_to_normalization s in
        load_db_files (snd r) configuration rest
      else load_db_files s configuration rest
  end.

(** The loop of [load_data_from_reduced_file] over the data entries. *)
Fixpoint load_data_files (s : dm) (configuration : option config)
    (data_files : list (pyval * string * config)) : result (dm * option config) :=
  match data_files with
  | [] => Ok (s, configuration)
  | (r_id, run_file, conf) :: rest =>
      if forallb is_file (split_plus run_file) then
        let! r := load E s run_file conf false in
        let '(is_from_cache, s, _) := r in
        let! r := (if is_from_cache then
                     let! configuration := reset_normalization configuration in
                     let! s := update_active_configuration s conf in
                     let! s := calculate_reflectivity s in
                     Ok (s, configuration)
                   else Ok (s, configuration)) in
        let '(s, configuration) := r in
        let! r := add_active_to_reduction s in
        load_data_files (snd r) configuration rest
      else load_data_files s configuration rest
  end.

(** [DataManager.load_data_from_reduced_file]: the new state and the
    caller's [configuration] as the call leaves it. *)
Definition load_data_from_reduced_file (s : dm) (file_path : string)
    (configuration : option config) : result (dm * option config) :=
  let! files := read_reduced_file file_path configuration in
  let '(db_files, data_files) := files in
  let! r := load_db_files s configuration db_files in
  load_data_files (fst r) (snd r) data_files.

End ReducedFile.

(* ------------------------------------------------------------------ *)
(** ** Concrete inputs *)

Definition cfg0 : config := mk_config PyNone false 0 0.

Definition mk_ch (name number : string) (theta : Q) (q : option (list Q)) (r : list Q) : channel :=
  mk_channel name name number cfg0 q r theta.

(** A loader producing a one-channel measurement numbered ["10"], no
    instrument constraint, a reflectivity calculation that keeps the data. *)
Definition E0 : externals :=
  mk_externals (fun p => p) (fun p => ("/data"%string, p))
    (fun n => match parse_int n with Some z => [z] | None => [] end)
    (fun _ _ _ => true)
    (fun p c => Ok (c, PyStr "10", [("Off_Off"%string, mk_ch "Off_Off" "10" 0 None [])]))
    (fun xs _ => Ok xs).

(** The file path of the object at [k], if any. *)
Definition paths (h : gmap nat measurement) (k : nat) : option string :=
  option_map m_path (h !! k).

(** The invariant [load] keeps on the cache: at most [MAX_CACHE] entries,
    each an allocated object, for pairwise different file paths. *)
Definition cache_ok (s : dm) : Prop :=
  length (cache s) <= MAX_CACHE /\
  (forall k, In k (cache s) -> k < next_id s /\ paths (heap s) k <> None) /\
  List.NoDup (map (paths (heap s)) (cache s)).

(** One step of the strict pass of [find_best_direct_beam] over run numbers. *)
Definition upd_closest (active : Z) (acc : option Z) (n : Z) : option Z :=
  update_closest acc n active.

(** The cache after some loads that each created a new measurement: the
    objects [n0], [n0+1], ... were created for the canonical paths [ps], and
    the cache is an older part [O] followed by the newest of them. *)
Definition cache_inv (n0 : nat) (ps : list string) (s : dm) : Prop :=
  next_id s = n0 + length ps /\
  (forall i, i < length ps -> paths (heap s) (n0 + i) = nth_error ps i) /\
  (ps = [] \/ length (cache s) <= MAX_CACHE) /\
  exists O t, cache s = O ++ skipn t (seq n0 (length ps)) /\ t <= length ps /\
    (t = 0 \/ (O = [] /\ length (cache s) = MAX_CACHE)).

Definition dm0 : dm := mk_dm ∅ 0 "/data"%string None None None [] [] [] [].

Definition path_n (n : nat) : string := string_of_list_ascii (repeat "a"%char (S n)).

Definition calls_n (k : nat) : list (string * config * bool) :=
  map (fun n => (path_n n, cfg0, false)) (seq 0 k).

(** A measurement whose channels carry the labels [labels], all at the
    scattering angle [theta]. *)
Definition mk_meas (p : string) (labels : list string) (theta : Q) : measurement :=
  mk_measurement p (PyStr "10") (map (fun l => (l, mk_ch l "10" theta None [])) labels).

(** A manager whose heap is [h], reduction list [rl] with states [states],
    and active measurement [active]. *)
Definition dm_red (h : gmap nat measurement) (rl : list nat) (states : list string)
    (active : nat) : dm :=
  mk_dm h 3 "/data"%string None (Some active) None [] rl [] states.

(** Angles 1 and 3 in the list, a new measurement at angle 2. *)
Definition dm_red_sorted : dm :=
  dm_red (<[0 := mk_meas "a" ["Off_Off"%string] 1]>
          (<[1 := mk_meas "b" ["Off_Off"%string] 3]>
          (<[2 := mk_meas "c" ["Off_Off"%string] 2]> ∅)))
    [0; 1] ["Off_Off"%string] 2.

(** A list fixed to ["Off_Off"], a new measurement with ["On_On"]. *)
Definition dm_red_incompatible : dm :=
  dm_red (<[0 := mk_meas "a" ["Off_Off"%string] 1]>
          (<[1 := mk_meas "b" ["On_On"%string] 2]> ∅))
    [0] ["Off_Off"%string] 1.

(** A data run ["a"] normalised by run 30, and the direct beam run 30
    whose intensity array is [r]. *)
Definition data_ch : channel :=
  mk_channel "Off_Off" "Off_Off" "10" (mk_config (PyStr "30") false 0 0)
    (Some [1; 2; 3]%Q) [1; 1; 1]%Q 1.

Definition dm_trim (r : list Q) : dm :=
  mk_dm (<[0 := mk_measurement "a" (PyStr "10") [("Off_Off"%string, data_ch)]]>
        (<[1 := mk_measurement "db" (PyStr "30") [("Off_Off"%string, mk_ch "Off_Off" "30" 0 None r)]]> ∅))
    2 "/data"%string None (Some 0) (Some (0, "Off_Off"%string)) [] [] [1] [].

(** [data_ch] without a q-array. *)
Definition data_ch_noq : channel :=
  mk_channel "Off_Off" "Off_Off" "10" (mk_config (PyStr "30") false 0 0) None [1; 1; 1]%Q 1.

(** [dm_trim] whose active channel has no q-array. *)
Definition dm_trim_noq (r : list Q) : dm :=
  mk_dm (<[0 := mk_measurement "a" (PyStr "10") [("Off_Off"%string, data_ch_noq)]]>
        (<[1 := mk_measurement "db" (PyStr "30") [("Off_Off"%string, mk_ch "Off_Off" "30" 0 None r)]]> ∅))
    2 "/data"%string None (Some 0) (Some (0, "Off_Off"%string)) [] [] [1] [].

(** The double nearest to [2.15]. *)
Definition float_2_15 : Q := 4841369599423283 # 2251799813685248.

(** A one-channel measurement with the q-array [q]. *)
Definition mk_meas_q (p : string) (q : list Q) : measurement :=
  mk_measurement p (PyStr "10") [("Off_Off"%string, mk_ch "Off_Off" "10" 1 (Some q) [])].

(** Two measurements in the reduction list: the first with a q-array
    that is not ascending, the second starting at q = 0.03. *)
Definition dm_overlap : dm :=
  mk_dm (<[0 := mk_meas_q "a" [1 # 100; 5 # 100; 2 # 100]]>
        (<[1 := mk_meas_q "b" [3 # 100; 6 # 100; 8 # 100]]> ∅))
    2 "/data"%string None (Some 0) (Some (0, "Off_Off"%string)) [] [0; 1] [] ["Off_Off"%string].

(** A manager whose reduction list has the channel labels [states]. *)
Definition dm_states (states : list string) : dm :=
  mk_dm ∅ 0 "/data"%string None None None [] [] [] states.

(** An instrument whose strict match ([skip_slits=False]) accepts no
    direct beam, and whose relaxed match accepts only channels named ["A"]. *)
Definition E_relaxed_A : externals :=
  mk_externals (canonical_path E0) (split_path E0) (run_numbers E0)
    (fun _ ch skip => skip && String.eqb (xs_name ch) "A")
    (nexus_load E0) (reflect E0).

(** Active run 11; direct beams run 10 (channel ["A"]) then run 20
    (channel ["B"]). *)
Definition dm_db : dm :=
  mk_dm (<[0 := mk_measurement "data" (PyStr "11") [("Off_Off"%string, mk_ch "Off_Off" "11" 1 None [])]]>
        (<[1 := mk_measurement "A" (PyStr "10") [("Off_Off"%string, mk_ch "A" "10" 0 None [])]]>
        (<[2 := mk_measurement "B" (PyStr "20") [("Off_Off"%string, mk_ch "B" "20" 0 None [])]]> ∅)))
    3 "/data"%string None (Some 0) (Some (0, "Off_Off"%string)) [] [] [1; 2] [].

(** The data run of [dm_trim] normalised by run 30, and one direct beam
    whose run identifier is the merged ["123+124"]. *)
Definition dm_db_merged : dm :=
  mk_dm (<[0 := mk_measurement "a" (PyStr "10") [("Off_Off"%string, data_ch)]]>
        (<[1 := mk_measurement "db" (PyStr "123+124")
                  [("Off_Off"%string, mk_ch "Off_Off" "123+124" 0 None [])]]> ∅))
    2 "/data"%string None (Some 0) (Some (0, "Off_Off"%string)) [] [] [1] [].

(** One cached measurement ["a"] (object 0), which is also in the
    reduction list and the direct beam list. *)
Definition dm_cached : dm :=
  mk_dm (<[0 := mk_meas "a" ["Off_Off"%string] 1]> ∅)
    1 "/data"%string None (Some 0) None [0] [0] [0] [].

(** The data run of [dm_trim] normalised by run 30, and two direct beams
    of run 30: the first with its number as a string, the second as an
    int, with channels named ["first"] and ["second"]. *)
Definition dm_two_db : dm :=
  mk_dm (<[0 := mk_measurement "a" (PyStr "10") [("Off_Off"%string, data_ch)]]>
        (<[1 := mk_measurement "db1" (PyStr "30") [("Off_Off"%string, mk_ch "first" "30" 0 None [])]]>
        (<[2 := mk_measurement "db2" (PyInt 30) [("Off_Off"%string, mk_ch "second" "30" 0 None [])]]> ∅)))
    3 "/data"%string None (Some 0) (Some (0, "Off_Off"%string)) [] [] [1; 2] [].

(** Active run 11; direct beams runs 13, 12 and 10. *)
Definition dm_near : dm :=
  mk_dm (<[0 := mk_measurement "data" (PyStr "11") [("Off_Off"%string, mk_ch "Off_Off" "11" 1 None [])]]>
        (<[1 := mk_measurement "r13" (PyStr "13") [("Off_Off"%string, mk_ch "Off_Off" "13" 0 None [])]]>
        (<[2 := mk_measurement "r12" (PyStr "12") [("Off_Off"%string, mk_ch "Off_Off" "12" 0 None [])]]>
        (<[3 := mk_measurement "r10" (PyStr "10") [("Off_Off"%string, mk_ch "Off_Off" "10" 0 None [])]]> ∅))))
    4 "/data"%string None (Some 0) (Some (0, "Off_Off"%string)) [] [] [1; 2; 3] [].

(** A reduced file listing the direct beam ["db"] and the data run ["a"]. *)
Definition read_db_a (file_path : string) (c : option config)
    : result (list (pyval * string * config) * list (pyval * string * config)) :=
  Ok ([(PyInt 1, "db"%string, cfg0)], [(PyInt 2, "a"%string, cfg0)]).

(* ================================================================== *)
(** * Proofs *)

Lemma rbind_ok {A B} (m : result A) (k : A -> result B) (b : B) :
  rbind m k = Ok b -> exists a, m = Ok a /\ k a = Ok b.
Proof. destruct m; simpl; [eauto | discriminate]. Qed.


Ltac fields := cbn; repeat split; reflexivity.

Lemma set_heap_self (s : dm) : set_heap s (heap s) = s.
Proof. destruct s; reflexivity. Qed.

Lemma set_parameter_shape s id p b s' :
  set_parameter s id p = Ok (b, s') ->
  exists h, s' = set_heap s h /\ forall k, paths h k = paths (heap s) k.
Proof.
  unfold set_parameter, deref.
  destruct (heap s !! id) as [m|] eqn:Hm; simpl; [|discriminate].
  intros H; injection H as <- <-.
  eexists; split; [reflexivity|].
  intros k; unfold paths.
  destruct (decide (k = id)) as [->|Hne].
  - rewrite lookup_insert_eq, Hm; reflexivity.
  - rewrite lookup_insert_ne; auto.
Qed.

Lemma find_best_shape E s b s' :
  find_best_direct_beam E s = Ok (b, s') ->
  exists h, s' = set_heap s h /\ forall k, paths h k = paths (heap s) k.
Proof.
  unfold find_best_direct_beam.
  destruct (best_direct_beam E s) as [[c|]|e]; simpl; try discriminate.
  - destruct (nexus_data s) as [id|]; [apply set_parameter_shape | discriminate].
  - intros H; injection H as <- <-.
    exists (heap s); split; [symmetry; apply set_heap_self | reflexivity].
Qed.

Lemma calc_shape E s id :
  exists h, calculate_reflectivity_caught E s id = set_heap s h /\
            forall k, paths h k = paths (heap s) k.
Proof.
  unfold calculate_reflectivity_caught.
  destruct (heap s !! id) as [m|] eqn:Hm;
    [| exists (heap s); split; [symmetry; apply set_heap_self | reflexivity]].
  destruct (find_direct_beam s (OfMeasurement m)) as [db|e];
    [| exists (heap s); split; [symmetry; apply set_heap_self | reflexivity]].
  destruct (reflect E (m_xs m) db) as [xs|e];
    [| exists (heap s); split; [symmetry; apply set_heap_self | reflexivity]].
  eexists; split; [reflexivity|].
  intros k; unfold paths.
  destruct (decide (k = id)) as [->|Hne].
  - rewrite lookup_insert_eq, Hm; reflexivity.
  - rewrite lookup_insert_ne; auto.
Qed.

Lemma set_channel_shape s i :
  snd (set_channel s i) = s \/ exists a, snd (set_channel s i) = set_active_channel s a.
Proof.
  unfold set_channel.
  destruct (nexus_data s) as [id|]; [|left; reflexivity].
  destruct (heap s !! id) as [m|]; [|left; reflexivity].
  destruct (nth_error _ _); [right; eexists; reflexivity|].
  destruct (keys (m_xs m)); [left; reflexivity | right; eexists; reflexivity].
Qed.

Lemma set_channel_fields s i :
  heap (snd (set_channel s i)) = heap s /\
  next_id (snd (set_channel s i)) = next_id s /\
  nexus_data (snd (set_channel s i)) = nexus_data s /\
  cache (snd (set_channel s i)) = cache s /\
  reduction_list (snd (set_channel s i)) = reduction_list s /\
  direct_beam_list (snd (set_channel s i)) = direct_beam_list s /\
  reduction_states (snd (set_channel s i)) = reduction_states s.
Proof.
  destruct (set_channel_shape s i) as [-> | [a ->]]; fields.
Qed.

Lemma load_finish_miss E s p id conf rl db b s1 c1 :
  load_finish E s p id false conf rl db = Ok (b, s1, c1) ->
  b = false /\ c1 = conf /\ nexus_data s1 = Some id /\ next_id s1 = next_id s /\
  (forall k, paths (heap s1) k = paths (heap s) k) /\
  cache s1 = cache_push (cache s) id.
Proof.
  unfold load_finish.
  destruct (split_path E p) as [d f].
  set (s2 := snd (set_channel (set_current_file (set_nexus_data s (Some id)) d (Some f)) 0)).
  destruct (set_channel_fields (set_current_file (set_nexus_data s (Some id)) d (Some f)) 0)
    as (Hh & Hn & Hx & Hc & _).
  fold s2 in Hh, Hn, Hx, Hc. cbn in Hh, Hn, Hx, Hc.
  intros H. apply rbind_ok in H. destruct H as ([b' s3] & Hfb & H).
  assert (Hs3 : exists h, s3 = set_heap s2 h /\ forall k, paths h k = paths (heap s2) k).
  { destruct (_ && _); [eapply find_best_shape; eauto|].
    injection Hfb as _ <-. exists (heap s2); split; [symmetry; apply set_heap_self | reflexivity]. }
  destruct Hs3 as (h3 & -> & Hp3).
  cbn [snd] in H.
  match type of H with
  | context [calculate_reflectivity_caught E ?t id] => destruct (calc_shape E t id) as (h4 & Hc4 & Hp4)
  end.
  rewrite Hc4 in H. cbn in H.
  injection H as <- <- <-.
  cbn. rewrite Hx, Hn, Hc. repeat split; auto.
  intros k. rewrite Hp4, Hp3, Hh. reflexivity.
Qed.

Lemma load_fresh_ok E s p conf rl db b s1 c1 :
  load_fresh E s p conf rl db = Ok (b, s1, c1) ->
  b = false /\ next_id s1 = S (next_id s) /\ nexus_data s1 = Some (next_id s) /\
  paths (heap s1) (next_id s) = Some p /\
  (forall k, k <> next_id s -> paths (heap s1) k = paths (heap s) k) /\
  cache s1 = cache_push (cache s) (next_id s) /\
  exists num xs, nexus_load E p (with_normalization conf PyNone) = Ok (c1, num, xs).
Proof.
  unfold load_fresh. intros H. apply rbind_ok in H.
  destruct H as ([[conf' num] xs] & Hl & H).
  cbv beta iota zeta in H.
  apply load_finish_miss in H. cbn in H.
  destruct H as (-> & -> & Hx & Hn & Hp & Hc).
  repeat split; auto.
  - rewrite Hp. unfold paths. rewrite lookup_insert_eq. reflexivity.
  - intros k Hk. rewrite Hp. unfold paths. rewrite lookup_insert_ne; auto.
  - eauto.
Qed.

Lemma cache_search_some s p c i id :
  cache_search s p c = Ok (Some (i, id)) ->
  nth_error c i = Some id /\ paths (heap s) id = Some p.
Proof.
  revert i. induction c as [|x c IH]; intros i; simpl; [discriminate|].
  unfold deref. destruct (heap s !! x) as [m|] eqn:Hm; simpl; [|discriminate].
  destruct (String.eqb_spec (m_path m) p) as [Heq|Hne].
  - intros H; injection H as <- <-. unfold paths. rewrite Hm. simpl. rewrite Heq. auto.
  - destruct (cache_search s p c) as [[[i' id']|]|e]; simpl; try discriminate.
    intros H; injection H as <- <-. simpl. apply IH. reflexivity.
Qed.

Lemma cache_search_none s p c :
  cache_search s p c = Ok None ->
  Forall (fun x => exists q, paths (heap s) x = Some q /\ q <> p) c.
Proof.
  induction c as [|x c IH]; simpl; [constructor|].
  unfold deref. destruct (heap s !! x) as [m|] eqn:Hm; simpl; [|discriminate].
  destruct (String.eqb_spec (m_path m) p) as [Heq|Hne]; [discriminate|].
  destruct (cache_search s p c) as [[r|]|e]; simpl; try discriminate.
  intros _. constructor; [|auto].
  exists (m_path m). unfold paths. rewrite Hm. auto.
Qed.

Lemma cache_search_finds s p c n :
  paths (heap s) n = Some p -> In n c ->
  Forall (fun x => x = n \/ exists q, paths (heap s) x = Some q /\ q <> p) c ->
  exists i, cache_search s p c = Ok (Some (i, n)).
Proof.
  intros Hn. induction c as [|x c IH]; simpl; [contradiction|].
  intros Hin Hall. inversion Hall as [|? ? Hx Hrest]; subst.
  unfold paths in Hn. unfold deref.
  destruct (Nat.eq_dec x n) as [->|Hne].
  - destruct (heap s !! n) as [m|]; simpl in *; [|discriminate].
    injection Hn as Hn. rewrite Hn, String.eqb_refl. eexists; reflexivity.
  - destruct Hx as [Hx|(q & Hq & Hqp)]; [congruence|].
    unfold paths in Hq. destruct (heap s !! x) as [m|]; simpl in *; [|discriminate].
    injection Hq as Hq. rewrite Hq.
    destruct (String.eqb_spec q p) as [?|_]; [congruence|].
    destruct IH as [i Hi]; [destruct Hin; [congruence|assumption] | assumption |].
    rewrite Hi. eexists; reflexivity.
Qed.

Lemma load_finish_hit E s p id conf rl db :
  exists s1, load_finish E s p id true conf rl db = Ok (true, s1, conf) /\
    nexus_data s1 = Some id /\ heap s1 = heap s /\ cache s1 = cache s.
Proof.
  unfold load_finish. destruct (split_path E p) as [d f].
  destruct (set_channel_fields (set_current_file (set_nexus_data s (Some id)) d (Some f)) 0)
    as (Hh & _ & Hx & Hc & _).
  eexists; split; [reflexivity|]. rewrite Hh, Hx, Hc. auto.
Qed.

Lemma load_miss E s path c f s1 c1 :
  load E s path c f = Ok (false, s1, c1) ->
  next_id s1 = S (next_id s) /\ nexus_data s1 = Some (next_id s) /\
  paths (heap s1) (next_id s) = Some (canonical_path E path) /\
  (forall k, k <> next_id s -> paths (heap s1) k = paths (heap s) k) /\
  (exists num xs, nexus_load E (canonical_path E path) (with_normalization c PyNone)
                  = Ok (c1, num, xs)) /\
  ((cache_search s (canonical_path E path) (cache s) = Ok None /\
    cache s1 = cache_push (cache s) (next_id s)) \/
   (exists i id, cache_search s (canonical_path E path) (cache s) = Ok (Some (i, id)) /\
      f = true /\ cache s1 = cache_push (remove_nth i (cache s)) (next_id s))).
Proof.
  unfold load. intros H. apply rbind_ok in H. destruct H as (found & Hf & H).
  destruct found as [[i id]|].
  - destruct f.
    + apply load_fresh_ok in H. cbn in H.
      destruct H as (_ & Hn & Hx & Hp & Hk & Hc & Hl).
      repeat split; auto. right. exists i, id. auto.
    + destruct (load_finish_hit E s (canonical_path E path) id c None None) as (s2 & Hh & _).
      rewrite Hh in H. discriminate.
  - apply load_fresh_ok in H.
    destruct H as (_ & Hn & Hx & Hp & Hk & Hc & Hl).
    repeat split; auto.
Qed.

Lemma evict_skipn f l : length l <= f -> evict f l = skipn (length l - 49) l.
Proof.
  revert l; induction f as [|f IH]; intros l Hl.
  - destruct l; [reflexivity | simpl in Hl; lia].
  - cbn [evict]. unfold MAX_CACHE.
    destruct (Nat.leb_spec 50 (length l)) as [Hge|Hlt].
    + destruct l as [|x l]; [simpl in Hge; lia|].
      cbn [tl length] in *. rewrite IH by lia.
      replace (S (length l) - 49) with (S (length l - 49)) by lia.
      reflexivity.
    + replace (length l - 49) with 0 by lia. reflexivity.
Qed.

Lemma cache_push_eq c x : cache_push c x = skipn (length c - 49) c ++ [x].
Proof. unfold cache_push. rewrite evict_skipn; auto. Qed.

Lemma cache_push_length c x :
  length (cache_push c x) = length c - (length c - 49) + 1.
Proof. rewrite cache_push_eq, length_app, length_skipn. reflexivity. Qed.

Lemma remove_nth_app {A} i (O X : list A) :
  i < length O -> remove_nth i (O ++ X) = remove_nth i O ++ X.
Proof.
  revert i; induction O as [|y O IH]; intros i Hi; simpl in *; [lia|].
  destruct i; [reflexivity|]. simpl. rewrite IH by lia. reflexivity.
Qed.

Lemma skipn_seq_snoc u a j :
  u <= j -> skipn u (seq a j) ++ [a + j] = skipn u (seq a (S j)).
Proof.
  intros Hu. rewrite !skipn_seq.
  replace (S j - u) with (S (j - u)) by lia.
  rewrite seq_S. do 2 f_equal. lia.
Qed.

Lemma cache_inv_step E n0 ps s path c f s1 c1 :
  cache_inv n0 ps s ->
  ~ In (canonical_path E path) ps ->
  load E s path c f = Ok (false, s1, c1) ->
  cache_inv n0 (ps ++ [canonical_path E path]) s1 /\ nexus_data s1 = Some (n0 + length ps).
Proof.
  intros (Hid & Hpaths & _ & O & t & Hc & Ht & Hor) Hnot Hload.
  apply load_miss in Hload.
  destruct Hload as (Hid1 & Hx1 & Hp1 & Hk1 & _ & Hcache).
  set (p := canonical_path E path) in *.
  set (j := length ps) in *.
  set (X := skipn t (seq n0 j)) in *.
  assert (HX : length X = j - t) by (unfold X; rewrite length_skipn, length_seq; reflexivity).
  assert (Hc0 : exists O', cache s1 = cache_push (O' ++ X) (next_id s) /\
                           (O = [] -> O' = []) /\ (t = 0 \/ O' = O)).
  { destruct Hcache as [(_ & ->) | (i & id & Hs & _ & ->)].
    - exists O. rewrite Hc. auto.
    - apply cache_search_some in Hs. destruct Hs as (Hi & Hpid).
      rewrite Hc in Hi.
      destruct (Nat.lt_ge_cases i (length O)) as [Hlt|Hge].
      + exists (remove_nth i O). rewrite Hc, remove_nth_app by assumption.
        split; [reflexivity|]. split; [intros ->; simpl in Hlt; lia|].
        destruct Hor as [->|[-> _]]; [auto | simpl in Hlt; lia].
      + exfalso. rewrite nth_error_app2 in Hi by assumption.
        apply nth_error_In in Hi. unfold X in Hi. rewrite skipn_seq in Hi.
        apply in_seq in Hi.
        assert (Hk : id - n0 < j) by lia.
        specialize (Hpaths (id - n0) Hk).
        replace (n0 + (id - n0)) with id in Hpaths by lia.
        rewrite Hpid in Hpaths. symmetry in Hpaths.
        apply nth_error_In in Hpaths. contradiction. }
  destruct Hc0 as (O' & Hc1 & HO & Hor').
  rewrite Hid in Hc1.
  assert (Hlen0 : length (cache s) = length O + (j - t)) by (rewrite Hc, length_app; lia).
  split; [|rewrite Hx1, Hid; reflexivity].
  split; [rewrite Hid1, Hid, length_app; simpl; lia|].
  split.
  { intros i Hi. rewrite length_app in Hi. simpl in Hi.
    destruct (Nat.eq_dec i j) as [->|Hne].
    - rewrite <- Hid, Hp1. rewrite nth_error_app2 by lia.
      rewrite Nat.sub_diag. reflexivity.
    - rewrite Hk1 by lia. rewrite nth_error_app1 by lia. apply Hpaths. lia. }
  split; [right; rewrite Hc1, cache_push_length; unfold MAX_CACHE; lia|].
  set (c0 := O' ++ X) in *.
  set (d := length c0 - 49) in *.
  assert (Hlc0 : length c0 = length O' + (j - t)) by (unfold c0; rewrite length_app; lia).
  set (u := d - length O').
  exists (skipn d O'), (u + t).
  rewrite length_app. simpl.
  assert (Hut : u + t <= j) by (unfold u, d; lia).
  assert (Hcache1 : cache s1 = skipn d O' ++ skipn (u + t) (seq n0 (S j))).
  { rewrite Hc1, cache_push_eq. fold d. unfold c0.
    rewrite skipn_app, <- app_assoc. f_equal. fold u.
    unfold X. rewrite skipn_skipn. apply skipn_seq_snoc. exact Hut. }
  split; [rewrite Hcache1; replace (length ps + 1) with (S j) by (unfold j; lia); reflexivity|].
  split; [lia|].
  destruct (Nat.eq_dec (u + t) 0) as [H0|Hn0]; [left; exact H0|right].
  assert (Hu : u > 0).
  { destruct (Nat.eq_dec u 0) as [Hu0|]; [|lia].
    exfalso. destruct Hor as [Ht0|[HO0 Hl50]]; [lia|].
    specialize (HO HO0). subst O'.
    unfold MAX_CACHE in Hl50. unfold u, d in Hu0. rewrite Hlc0 in Hu0.
    rewrite Hlen0, HO0 in Hl50. simpl in *. lia. }
  split.
  - apply skipn_all2. unfold u in Hu. lia.
  - rewrite Hc1, cache_push_length. fold c0. unfold MAX_CACHE. unfold u, d in Hu. lia.
Qed.

Lemma cache_inv_init s : cache_inv (next_id s) [] s.
Proof.
  repeat split; [simpl; lia | intros i Hi; simpl in Hi; lia | left; reflexivity |].
  exists (cache s), 0. simpl. rewrite app_nil_r. auto.
Qed.

Lemma run_loads_inv E calls : forall s n0 ps trace s',
  cache_inv n0 ps s ->
  List.NoDup (ps ++ map (fun call => canonical_path E (fst (fst call))) calls) ->
  run_loads E s calls = Ok (trace, s') ->
  Forall (fun bs => fst bs = false) trace ->
  cache_inv n0 (ps ++ map (fun call => canonical_path E (fst (fst call))) calls) s' /\
  Forall (fun bs => length (cache (snd bs)) <= MAX_CACHE) trace /\
  (forall i b st, nth_error trace i = Some (b, st) -> nexus_data st = Some (n0 + length ps + i)).
Proof.
  induction calls as [|[[path conf] force] calls IH];
    intros s n0 ps trace s' Hinv Hnd Hrun Hfalse.
  - simpl in Hrun. injection Hrun as <- <-. rewrite app_nil_r.
    split; [exact Hinv|]. split; [constructor|]. intros [|i] b st H; discriminate.
  - simpl in Hrun. apply rbind_ok in Hrun. destruct Hrun as ([[b s1] c1] & Hl & Hrun).
    apply rbind_ok in Hrun. destruct Hrun as ([tr s2] & Hr & Heq).
    injection Heq as <- <-.
    inversion Hfalse as [|? ? Hb Hfalse']; subst. simpl in Hb. subst b.
    simpl in Hnd.
    assert (Hnin : ~ In (canonical_path E path) ps).
    { intros Hin. apply NoDup_remove_2 in Hnd. apply Hnd, in_or_app. left; exact Hin. }
    destruct (cache_inv_step E n0 ps s path conf force s1 c1 Hinv Hnin Hl) as (Hinv1 & Hx1).
    specialize (IH s1 n0 (ps ++ [canonical_path E path]) tr s2 Hinv1).
    rewrite <- app_assoc in IH. simpl in IH.
    destruct (IH Hnd Hr Hfalse') as (Hi2 & Hf2 & Hn2).
    split; [exact Hi2|]. split.
    + constructor; [|exact Hf2].
      destruct Hinv1 as (_ & _ & [Hnil|Hle] & _); [|exact Hle].
      exfalso. destruct ps; discriminate.
    + intros [|i] b st Hnth; simpl in Hnth.
      * injection Hnth as <- <-. rewrite Hx1. f_equal; lia.
      * apply Hn2 in Hnth. rewrite length_app in Hnth. simpl in Hnth.
        rewrite Hnth. f_equal; lia.
Qed.

(** C1: after a sequence of [load] calls on pairwise distinct canonical paths,
    none served from the cache, with at least [MAX_CACHE] calls, the cache
    holds exactly the [MAX_CACHE] measurements created last, oldest first
    (call [i] creates object [next_id s + i], for the path of call [i]);
    after every call the cache holds at most [MAX_CACHE] entries. *)
Theorem load_cache_fifo E s calls trace s' :
  List.NoDup (map (fun call => canonical_path E (fst (fst call))) calls) ->
  run_loads E s calls = Ok (trace, s') ->
  Forall (fun bs => fst bs = false) trace ->
  MAX_CACHE <= length calls ->
  cache s' = seq (next_id s + length calls - MAX_CACHE) MAX_CACHE /\
  (forall i, i < length calls ->
     paths (heap s') (next_id s + i) =
     option_map (fun call => canonical_path E (fst (fst call))) (nth_error calls i)) /\
  (forall i b st, nth_error trace i = Some (b, st) -> nexus_data st = Some (next_id s + i)) /\
  Forall (fun bs => length (cache (snd bs)) <= MAX_CACHE) trace.
Proof.
  intros Hnd Hrun Hfalse Hk.
  destruct (run_loads_inv E calls s (next_id s) [] trace s' (cache_inv_init s) Hnd Hrun Hfalse)
    as (Hinv & Hle & Hn).
  simpl in Hinv, Hn.
  destruct Hinv as (_ & Hp & Hsz & O & t & Hc & Ht & Hor).
  rewrite length_map in Hp, Hc, Ht.
  split; [|split; [|split; [intros i b st H; rewrite (Hn i b st H), Nat.add_0_r; reflexivity
                           | exact Hle]]].
  - destruct Hsz as [Hnil|Hsz].
    { apply map_eq_nil in Hnil. subst calls. unfold MAX_CACHE in Hk. simpl in Hk. lia. }
    unfold MAX_CACHE in *.
    destruct Hor as [->|[-> Hl50]].
    + rewrite Hc, length_app, length_skipn, length_seq in Hsz.
      destruct O; cbn [length] in Hsz; [|lia].
      rewrite Hc. cbn [app skipn]. replace (length calls) with 50 by lia.
      replace (next_id s + 50 - 50) with (next_id s) by lia. reflexivity.
    + rewrite Hc in Hl50. cbn [app] in Hl50. rewrite length_skipn, length_seq in Hl50.
      rewrite Hc. cbn [app]. rewrite skipn_seq. f_equal; lia.
  - intros i Hi. rewrite Hp by exact Hi.
    rewrite nth_error_map. reflexivity.
Qed.


Lemma load_cache_fifo_witness :
  match run_loads E0 dm0 (calls_n 51) with
  | Ok (trace, s') => cache s' = seq 1 50
  | Err _ => False
  end.
Proof.
  assert (Hb : match run_loads E0 dm0 (calls_n 51) with
               | Ok (trace, _) => forallb (fun bs => negb (fst bs)) trace
               | Err _ => false
               end = true) by (vm_compute; reflexivity).
  destruct (run_loads E0 dm0 (calls_n 51)) as [[trace s']|e] eqn:Hrun; [|discriminate].
  assert (Hnd : List.NoDup (map (fun call => canonical_path E0 (fst (fst call))) (calls_n 51))).
  { vm_compute.
    repeat (apply List.NoDup_cons; [cbn; intuition discriminate|]).
    apply List.NoDup_nil. }
  assert (Hf : Forall (fun bs => fst bs = false) trace).
  { apply List.Forall_forall. intros bs Hin. apply forallb_forall with (x := bs) in Hb; [|exact Hin].
    destruct (fst bs); [discriminate | reflexivity]. }
  assert (Hk : MAX_CACHE <= length (calls_n 51)) by (vm_compute; lia).
  destruct (load_cache_fifo E0 dm0 (calls_n 51) trace s' Hnd Hrun Hf Hk) as [Hc _].
  exact Hc.
Defined.

Lemma in_skipn_in {A} n (l : list A) x : In x (skipn n l) -> In x l.
Proof. intros H. rewrite <- (firstn_skipn n l). apply in_or_app. right. exact H. Qed.

Lemma cache_search_heap s s' p c :
  heap s = heap s' -> cache_search s p c = cache_search s' p c.
Proof.
  intros Hh. induction c as [|x c IH]; simpl; [reflexivity|].
  unfold deref. rewrite Hh, IH. reflexivity.
Qed.

Lemma load_on_miss E s path c f :
  cache_search s (canonical_path E path) (cache s) = Ok None ->
  load E s path c f = load_fresh E s (canonical_path E path) c None None.
Proof. intros Hs. unfold load. rewrite Hs. reflexivity. Qed.

Lemma load_on_hit E s path c i id :
  cache_search s (canonical_path E path) (cache s) = Ok (Some (i, id)) ->
  load E s path c false = load_finish E s (canonical_path E path) id true c None None.
Proof. intros Hs. unfold load. rewrite Hs. reflexivity. Qed.

(** C9: loading a path that is not cached, then loading it again, both with
    [force=False]: the first call reports [is_from_cache=False], the second
    [is_from_cache=True], and both leave the same object as the active
    measurement and as the cache entry for the path. *)
Theorem load_twice_same_object E s path c c' b1 s1 c1 :
  cache_search s (canonical_path E path) (cache s) = Ok None ->
  load E s path c false = Ok (b1, s1, c1) ->
  b1 = false /\
  exists n s2,
    nexus_data s1 = Some n /\
    (exists i, cache_search s1 (canonical_path E path) (cache s1) = Ok (Some (i, n))) /\
    load E s1 path c' false = Ok (true, s2, c') /\
    nexus_data s2 = Some n /\
    (exists i, cache_search s2 (canonical_path E path) (cache s2) = Ok (Some (i, n))).
Proof.
  intros Hnone Hload.
  set (p := canonical_path E path) in *.
  pose proof (cache_search_none _ _ _ Hnone) as Hall.
  rewrite load_on_miss in Hload by exact Hnone.
  apply load_fresh_ok in Hload.
  destruct Hload as (-> & Hid1 & Hx1 & Hp1 & Hk1 & Hc1 & _).
  split; [reflexivity|].
  assert (Hfind : exists i, cache_search s1 p (cache s1) = Ok (Some (i, next_id s))).
  { apply cache_search_finds; [exact Hp1 | |].
    - rewrite Hc1, cache_push_eq. apply in_or_app. right. left. reflexivity.
    - rewrite Hc1, cache_push_eq. apply List.Forall_app. split.
      + apply List.Forall_forall. intros x Hx.
        destruct (Nat.eq_dec x (next_id s)) as [->|Hne]; [left; reflexivity|right].
        rewrite Hk1 by exact Hne.
        apply List.Forall_forall with (x := x) in Hall; [exact Hall|].
        eapply in_skipn_in; exact Hx.
      + constructor; [left; reflexivity | constructor]. }
  destruct Hfind as [i Hi].
  destruct (load_finish_hit E s1 p (next_id s) c' None None) as (s2 & Hh & Hx2 & Hheap2 & Hc2).
  exists (next_id s), s2.
  split; [exact Hx1|]. split; [exists i; exact Hi|].
  split; [rewrite (load_on_hit E s1 path c' i (next_id s) Hi); exact Hh|].
  split; [exact Hx2|].
  exists i. rewrite Hc2, (cache_search_heap s2 s1) by exact Hheap2. exact Hi.
Qed.

Lemma load_twice_same_object_witness :
  exists b1 s1 c1, load E0 dm0 "a" cfg0 false = Ok (b1, s1, c1) /\ b1 = false /\
    exists n s2, nexus_data s1 = Some n /\
      load E0 s1 "a" cfg0 false = Ok (true, s2, cfg0) /\ nexus_data s2 = Some n.
Proof.
  destruct (load E0 dm0 "a" cfg0 false) as [[[b1 s1] c1]|e] eqn:Hl;
    [|vm_compute in Hl; discriminate].
  exists b1, s1, c1. split; [reflexivity|].
  assert (Hnone : cache_search dm0 (canonical_path E0 "a") (cache dm0) = Ok None)
    by reflexivity.
  destruct (load_twice_same_object E0 dm0 "a" cfg0 cfg0 b1 s1 c1 Hnone Hl)
    as (Hb & n & s2 & Hx1 & _ & Hl2 & Hx2 & _).
  split; [exact Hb|]. exists n, s2. auto.
Defined.

Lemma with_normalization_twice c v w :
  with_normalization (with_normalization c v) w = with_normalization c w.
Proof. destruct c; reflexivity. Qed.

(** C10: when [load] does not serve the measurement from the cache (a miss,
    or [force=True]) the loader receives the caller's configuration with
    [normalization] set to [None], so the caller's own normalization value
    has no influence on the call, and the configuration the call hands back
    is the one the loader left; on a cache hit with [force=False] the
    caller's configuration is returned untouched.  [is_from_cache] is true
    exactly on a cache hit with [force=False]. *)
Theorem load_resets_caller_normalization E s path c f :
  ((cache_search s (canonical_path E path) (cache s) = Ok None \/ f = true) ->
     forall v, load E s path (with_normalization c v) f = load E s path c f) /\
  (forall s1 c1, load E s path c f = Ok (false, s1, c1) ->
     exists num xs,
       nexus_load E (canonical_path E path) (with_normalization c PyNone) = Ok (c1, num, xs)) /\
  (forall s1 c1, load E s path c f = Ok (true, s1, c1) -> c1 = c) /\
  (forall b s1 c1, load E s path c f = Ok (b, s1, c1) ->
     (b = true <-> f = false /\
        exists i id, cache_search s (canonical_path E path) (cache s) = Ok (Some (i, id)))).
Proof.
  set (p := canonical_path E path).
  split; [|split; [|split]].
  - intros Hmiss v. unfold load. fold p.
    destruct (cache_search s p (cache s)) as [[[i id]|]|e] eqn:Hs; cbn [rbind].
    + destruct Hmiss as [Hm| ->]; [discriminate|].
      unfold load_fresh. rewrite with_normalization_twice. reflexivity.
    + unfold load_fresh. rewrite with_normalization_twice. reflexivity.
    + reflexivity.
  - intros s1 c1 Hl. apply load_miss in Hl. destruct Hl as (_ & _ & _ & _ & Hn & _). exact Hn.
  - intros s1 c1 Hl. unfold load in Hl. fold p in Hl.
    destruct (cache_search s p (cache s)) as [[[i id]|]|e] eqn:Hs; cbn [rbind] in Hl;
      [destruct f| |discriminate].
    + apply load_fresh_ok in Hl. destruct Hl as [Hf _]; discriminate.
    + destruct (load_finish_hit E s p id c None None) as (s2 & Hh & _).
      rewrite Hh in Hl. injection Hl as _ <-. reflexivity.
    + apply load_fresh_ok in Hl. destruct Hl as [Hf _]; discriminate.
  - intros b s1 c1 Hl. unfold load in Hl. fold p in Hl.
    destruct (cache_search s p (cache s)) as [[[i id]|]|e] eqn:Hs; cbn [rbind] in Hl;
      [destruct f| |discriminate].
    + apply load_fresh_ok in Hl. destruct Hl as [-> _].
      split; [discriminate | intros [Hf _]; discriminate].
    + destruct (load_finish_hit E s p id c None None) as (s2 & Hh & _).
      rewrite Hh in Hl. injection Hl as <- _ _.
      split; [intros _; split; [reflexivity | exists i, id; reflexivity] | reflexivity].
    + apply load_fresh_ok in Hl. destruct Hl as [-> _].
      split; [discriminate | intros [_ (i & id & Hi)]; discriminate].
Qed.

Lemma deref_heap s1 s2 k : heap s1 = heap s2 -> deref s1 k = deref s2 k.
Proof. unfold deref. intros ->. reflexivity. Qed.

Lemma angles_heap s1 s2 l : heap s1 = heap s2 -> angles s1 l = angles s2 l.
Proof.
  intros Hh. induction l as [|y l IH]; [reflexivity|].
  cbn [angles]. rewrite (deref_heap s1 s2 y Hh), IH. reflexivity.
Qed.

Lemma insert_heap s1 s2 x theta l :
  heap s1 = heap s2 -> insert_by_theta s1 x theta l = insert_by_theta s2 x theta l.
Proof.
  intros Hh. induction l as [|y l IH]; [reflexivity|].
  cbn [insert_by_theta]. rewrite (deref_heap s1 s2 y Hh), IH. reflexivity.
Qed.

Lemma angles_cons s y l ts :
  angles s (y :: l) = Ok ts ->
  exists m t r, deref s y = Ok m /\ ws_two_theta m = Ok t /\ angles s l = Ok r /\ ts = t :: r.
Proof.
  cbn [angles]. intros H.
  apply rbind_ok in H as [m [Hm H]]. apply rbind_ok in H as [t [Ht H]].
  apply rbind_ok in H as [r [Hr H]]. injection H as <-. eauto 7.
Qed.

Lemma insert_index s x theta l ts l' :
  angles s l = Ok ts -> insert_by_theta s x theta l = Ok l' ->
  exists i, i <= length ts /\ l' = firstn i l ++ x :: skipn i l /\
    (forall j t, j < i -> nth_error ts j = Some t -> (t < theta)%Q) /\
    (forall t, nth_error ts i = Some t -> (theta <= t)%Q).
Proof.
  revert ts l'. induction l as [|y l IH]; intros ts l' Ha Hi.
  - cbn in Ha, Hi. injection Ha as <-. injection Hi as <-.
    exists 0. split; [reflexivity|]. split; [reflexivity|].
    split; [intros j t Hj; lia | intros t Ht; discriminate].
  - apply angles_cons in Ha as (m & t & r & Hm & Ht & Hr & ->).
    cbn [insert_by_theta] in Hi. rewrite Hm in Hi. cbn [rbind] in Hi. rewrite Ht in Hi.
    cbn [rbind] in Hi. destruct (Qle_bool theta t) eqn:Hq.
    + injection Hi as <-. exists 0. split; [cbn; lia|]. split; [reflexivity|].
      split; [intros j t' Hj; lia|].
      intros t' Ht'. injection Ht' as <-. apply Qle_bool_iff. exact Hq.
    + apply rbind_ok in Hi as [l'' [Hl'' Hi]]. injection Hi as <-.
      destruct (IH r l'' Hr Hl'') as (i & Hle & -> & Hlt & Hge).
      exists (S i). split; [cbn; lia|]. split; [reflexivity|]. split.
      * intros [|j] t' Hj Ht'.
        -- injection Ht' as <-. apply Qnot_le_lt. intros Hle'.
           apply Qle_bool_iff in Hle'. congruence.
        -- apply (Hlt j); [lia | exact Ht'].
      * intros t' Ht'. apply Hge. exact Ht'.
Qed.

Lemma insert_angles s x m theta l l' ts :
  deref s x = Ok m -> ws_two_theta m = Ok theta -> angles s l = Ok ts ->
  insert_by_theta s x theta l = Ok l' -> angles s l' = Ok (qinsert theta ts).
Proof.
  intros Hm Ht. revert ts l'. induction l as [|y l IH]; intros ts l' Ha Hi.
  - cbn in Ha, Hi. injection Ha as <-. injection Hi as <-.
    cbn [angles]. rewrite Hm. cbn [rbind]. rewrite Ht. reflexivity.
  - apply angles_cons in Ha as (my & t & r & Hmy & Hty & Hr & ->).
    cbn [insert_by_theta] in Hi. rewrite Hmy in Hi. cbn [rbind] in Hi. rewrite Hty in Hi.
    cbn [rbind] in Hi. cbn [qinsert]. destruct (Qle_bool theta t) eqn:Hq.
    + injection Hi as <-. cbn [angles]. rewrite Hm. cbn [rbind]. rewrite Ht. cbn [rbind].
      rewrite Hmy. cbn [rbind]. rewrite Hty. cbn [rbind]. rewrite Hr. reflexivity.
    + apply rbind_ok in Hi as [l'' [Hl'' Hi]]. injection Hi as <-.
      cbn [angles]. rewrite Hmy. cbn [rbind]. rewrite Hty. cbn [rbind].
      rewrite (IH r l'' Hr Hl''). reflexivity.
Qed.

Lemma qinsert_hdrel t theta r :
  HdRel Qle t r -> (t <= theta)%Q -> HdRel Qle t (qinsert theta r).
Proof.
  intros Hh Ht. destruct r as [|t' r]; cbn [qinsert].
  - constructor. exact Ht.
  - destruct (Qle_bool theta t'); [constructor; exact Ht|].
    inversion Hh; subst. constructor. assumption.
Qed.

Lemma qinsert_sorted theta ts : Sorted Qle ts -> Sorted Qle (qinsert theta ts).
Proof.
  induction ts as [|t r IH]; intros Hs; cbn [qinsert].
  - repeat constructor.
  - inversion Hs as [|t0 r0 Hr Hh]; subst.
    destruct (Qle_bool theta t) eqn:Hq.
    + constructor; [exact Hs|]. constructor. apply Qle_bool_iff. exact Hq.
    + constructor; [apply IH; exact Hr|]. apply qinsert_hdrel; [exact Hh|].
      apply Qlt_le_weak. apply Qnot_le_lt. intros Hle. apply Qle_bool_iff in Hle. congruence.
Qed.

Lemma add_false s s' : add_active_to_reduction s = Ok (false, s') -> s' = s.
Proof.
  unfold add_active_to_reduction. destruct (nexus_data s) as [id|]; [|discriminate].
  destruct (existsb (Nat.eqb id) (reduction_list s)).
  - intros H. injection H as <-. reflexivity.
  - intros H. apply rbind_ok in H as [ok [_ H]]. destruct ok.
    + apply rbind_ok in H as [m [_ H]]. cbv zeta in H.
      apply rbind_ok in H as [t [_ H]]. apply rbind_ok in H as [l [_ H]]. discriminate.
    + injection H as <-. reflexivity.
Qed.

Lemma add_true s s' : add_active_to_reduction s = Ok (true, s') ->
  exists id m theta s0 l, nexus_data s = Some id /\ deref s id = Ok m /\
    ws_two_theta m = Ok theta /\ heap s0 = heap s /\ reduction_list s0 = reduction_list s /\
    insert_by_theta s0 id theta (reduction_list s0) = Ok l /\ s' = set_reduction_list s0 l.
Proof.
  unfold add_active_to_reduction. destruct (nexus_data s) as [id|]; [|discriminate].
  destruct (existsb (Nat.eqb id) (reduction_list s)).
  - intros H. injection H as Hb _. discriminate.
  - intros H. apply rbind_ok in H as [ok [_ H]]. destruct ok; [|injection H as Hb _; discriminate].
    apply rbind_ok in H as [m [Hm H]]. cbv zeta in H.
    apply rbind_ok in H as [t [Ht H]]. apply rbind_ok in H as [l [Hl H]]. injection H as <-.
    exists id, m, t, (match reduction_list s with
                      | [] => set_reduction_states s (keys (m_xs m))
                      | _ => s end), l.
    split; [reflexivity|]. split; [exact Hm|]. split; [exact Ht|].
    split; [destruct (reduction_list s) eqn:E; cbn; congruence|].
    split; [destruct (reduction_list s) eqn:E; cbn; congruence|].
    split; [exact Hl | reflexivity].
Qed.

Lemma add_preserves_sorted s b s' :
  angles_sorted s -> add_active_to_reduction s = Ok (b, s') -> angles_sorted s'.
Proof.
  intros Hs Ha. destruct b.
  - apply add_true in Ha as (id & m & theta & s0 & l & Hx & Hm & Ht & Hh & Hrl & Hl & ->).
    unfold angles_sorted in *. cbn [reduction_list set_reduction_list].
    rewrite (angles_heap (set_reduction_list s0 l) s l) by (rewrite <- Hh; reflexivity).
    destruct (angles s (reduction_list s)) as [ts|e] eqn:Ha; [|contradiction].
    rewrite Hrl, (insert_heap s0 s) in Hl by exact Hh.
    rewrite (insert_angles s id m theta (reduction_list s) l ts Hm Ht Ha Hl).
    apply qinsert_sorted. exact Hs.
  - apply add_false in Ha. subst. exact Hs.
Qed.

Lemma add_all_sorted s ids bs s' :
  angles_sorted s -> add_all s ids = Ok (bs, s') -> angles_sorted s'.
Proof.
  revert s bs. induction ids as [|id ids IH]; intros s bs Hs Ha.
  - cbn in Ha. injection Ha as _ <-. exact Hs.
  - cbn [add_all] in Ha. apply rbind_ok in Ha as [[b s1] [H1 Ha]].
    apply rbind_ok in Ha as [[bs' s2] [H2 Ha]]. injection Ha as _ <-.
    apply (IH s1 bs'); [|exact H2].
    apply (add_preserves_sorted (set_nexus_data s (Some id)) b); [|exact H1].
    unfold angles_sorted in *. cbn [reduction_list set_nexus_data].
    rewrite (angles_heap _ s) by reflexivity. exact Hs.
Qed.

(** C2: [add_active_to_reduction] puts the active measurement [id] at the
    first index [i] of the reduction list whose angle (the two-theta of its
    first channel) is at least the new angle [theta], or at the end when
    there is none; so after any sequence of additions starting from a list
    whose angles are sorted, the angles are still sorted (non-decreasing). *)
Theorem add_active_to_reduction_sorted s s' id ts :
  nexus_data s = Some id -> angles s (reduction_list s) = Ok ts ->
  add_active_to_reduction s = Ok (true, s') ->
  (exists m theta i, deref s id = Ok m /\ ws_two_theta m = Ok theta /\ i <= length ts /\
     reduction_list s' = firstn i (reduction_list s) ++ id :: skipn i (reduction_list s) /\
     (forall j t, j < i -> nth_error ts j = Some t -> (t < theta)%Q) /\
     (forall t, nth_error ts i = Some t -> (theta <= t)%Q)) /\
  (forall s0 ids bs s1, angles_sorted s0 -> add_all s0 ids = Ok (bs, s1) -> angles_sorted s1).
Proof.
  intros Hx Ha Hadd. split; [|exact add_all_sorted].
  apply add_true in Hadd as (id' & m & theta & s0 & l & Hx' & Hm & Ht & Hh & Hrl & Hl & ->).
  rewrite Hx in Hx'. injection Hx' as <-.
  rewrite Hrl, (insert_heap s0 s) in Hl by exact Hh.
  destruct (insert_index s id theta (reduction_list s) ts l Ha Hl) as (i & Hi & Hl' & Hlt & Hge).
  exists m, theta, i. auto 7.
Qed.

Lemma add_active_to_reduction_sorted_witness :
  exists s', add_active_to_reduction dm_red_sorted = Ok (true, s') /\
    exists m theta i, deref dm_red_sorted 2 = Ok m /\ ws_two_theta m = Ok theta /\ i <= 2 /\
      reduction_list s' = firstn i [0; 1] ++ 2 :: skipn i [0; 1].
Proof.
  destruct (add_active_to_reduction dm_red_sorted) as [[[|] s']|e] eqn:Ha;
    [| vm_compute in Ha; discriminate | vm_compute in Ha; discriminate].
  exists s'. split; [reflexivity|].
  destruct (add_active_to_reduction_sorted dm_red_sorted s' 2 [1; 3]%Q eq_refl
              ltac:(vm_compute; reflexivity) Ha) as [(m & theta & i & Hm & Ht & Hi & Hl & _) _].
  exists m, theta, i. auto.
Defined.

(** C4: when the active measurement is already in the reduction list, or
    the list is non-empty and the measurement's channel labels are not the
    same set (same number, same members) as [reduction_states],
    [add_active_to_reduction] returns [False] and leaves the manager, so
    the list and [reduction_states], unchanged.  (The labels are the keys
    of a dict, hence distinct.) *)
Theorem add_active_to_reduction_rejects s id m :
  nexus_data s = Some id -> deref s id = Ok m -> List.NoDup (keys (m_xs m)) ->
  (In id (reduction_list s) \/
   (reduction_list s <> [] /\
    ~ (length (keys (m_xs m)) = length (reduction_states s) /\
       forall k, In k (keys (m_xs m)) <-> In k (reduction_states s)))) ->
  add_active_to_reduction s = Ok (false, s).
Proof.
  intros Hx Hm Hnd Hcase. unfold add_active_to_reduction. rewrite Hx.
  destruct (existsb (Nat.eqb id) (reduction_list s)) eqn:He; [reflexivity|].
  destruct Hcase as [Hin | [Hne Hnot]].
  - assert (existsb (Nat.eqb id) (reduction_list s) = true) as Ht.
    { apply existsb_exists. exists id. split; [exact Hin | apply Nat.eqb_refl]. }
    congruence.
  - unfold is_active_data_compatible, active_data_sets.
    destruct (reduction_list s) as [|y l] eqn:Hrl; [congruence|].
    rewrite Hx. unfold deref in Hm. unfold deref.
    destruct (heap s !! id) as [m'|]; [injection Hm as ->|discriminate]. cbn [rbind].
    destruct (Nat.eqb (length (reduction_states s)) (length (keys (m_xs m)))) eqn:Hl;
      cbn [negb]; [|reflexivity].
    destruct (forallb _ _) eqn:Hf; [|reflexivity].
    exfalso. apply Hnot.
    apply Nat.eqb_eq in Hl.
    assert (Hinc : incl (keys (m_xs m)) (reduction_states s)).
    { intros k Hk. rewrite forallb_forall in Hf. specialize (Hf k Hk).
      apply existsb_exists in Hf as [k' [Hk' Heq]]. apply String.eqb_eq in Heq. subst. exact Hk'. }
    split; [symmetry; exact Hl|].
    intros k. split; [apply Hinc|].
    apply (NoDup_length_incl Hnd); [lia | exact Hinc].
Qed.

Lemma add_active_to_reduction_rejects_witness :
  add_active_to_reduction dm_red_incompatible = Ok (false, dm_red_incompatible).
Proof.
  apply (add_active_to_reduction_rejects dm_red_incompatible 1
           (mk_meas "b" ["On_On"%string] 2)).
  - reflexivity.
  - vm_compute. reflexivity.
  - cbn. constructor; [intros []|constructor].
  - right. split; [discriminate|]. intros [_ H].
    destruct (proj1 (H "On_On"%string)) as [E|[]]; [cbn; left; reflexivity|].
    discriminate.
Defined.

Lemma fold_max_spec (r : list Q) (acc : Q) :
  let res := fold_left (fun m y => if Qle_bool m y then y else m) r acc in
  (res = acc \/ In res r) /\ (acc <= res)%Q /\ (forall x, In x r -> (x <= res)%Q).
Proof.
  revert acc. induction r as [|y r IH]; intros acc; cbn [fold_left].
  - split; [left; reflexivity|]. split; [apply Qle_refl | intros x []].
  - set (acc' := if Qle_bool acc y then y else acc).
    assert (Ha : (acc <= acc')%Q /\ (y <= acc')%Q /\ (acc' = y \/ acc' = acc)).
    { unfold acc'. destruct (Qle_bool acc y) eqn:Hq.
      - apply Qle_bool_iff in Hq. split; [exact Hq|]. split; [apply Qle_refl | left; reflexivity].
      - split; [apply Qle_refl|]. split; [|right; reflexivity].
        apply Qlt_le_weak, Qnot_le_lt. intros H. apply Qle_bool_iff in H. congruence. }
    destruct Ha as (Ha1 & Ha2 & Ha3).
    destruct (IH acc') as (H1 & H2 & H3). split; [|split].
    + destruct H1 as [H1|H1]; [|right; right; exact H1].
      rewrite H1. destruct Ha3 as [->| ->]; [right; left; reflexivity | left; reflexivity].
    + apply (Qle_trans _ acc'); assumption.
    + intros x [<-|Hx]; [apply (Qle_trans _ acc'); assumption | apply H3; exact Hx].
Qed.

Lemma np_max_spec r : r <> [] ->
  exists mx, np_max r = Ok mx /\ In mx r /\ forall x, In x r -> (x <= mx)%Q.
Proof.
  destruct r as [|x r]; [congruence|]. intros _.
  destruct (fold_max_spec r x) as (H1 & H2 & H3).
  eexists; split; [reflexivity|]. split.
  - destruct H1 as [-> | H1]; [left; reflexivity | right; exact H1].
  - intros y [<-|Hy]; [exact H2 | apply H3; exact Hy].
Qed.

Lemma np_where_first pred a i z rest :
  np_where_from pred a i = z :: rest ->
  exists k x, z = (i + Z.of_nat k)%Z /\ nth_error a k = Some x /\ pred x = true /\
    forall j y, j < k -> nth_error a j = Some y -> pred y = false.
Proof.
  revert i. induction a as [|x a IH]; intros i H; cbn [np_where_from] in H; [discriminate|].
  destruct (pred x) eqn:Hp.
  - injection H as <- _. exists 0, x. split; [lia|]. split; [reflexivity|]. split; [exact Hp|].
    intros j y Hj; lia.
  - destruct (IH (i + 1)%Z H) as (k & y & -> & Hk & Hy & Hbefore).
    exists (S k), y. split; [lia|]. split; [exact Hk|]. split; [exact Hy|].
    intros [|j] y' Hj Hj'; [injection Hj' as <-; exact Hp|].
    apply (Hbefore j); [lia | exact Hj'].
Qed.

Lemma np_where_snoc pred a x i :
  np_where_from pred (a ++ [x]) i =
  np_where_from pred a i ++ (if pred x then [(i + Z.of_nat (length a))%Z] else []).
Proof.
  revert i. induction a as [|y a IH]; intros i; cbn [app np_where_from length].
  - destruct (pred x); [rewrite Z.add_0_r|]; reflexivity.
  - rewrite IH. replace (i + 1 + Z.of_nat (length a))%Z with (i + Z.of_nat (S (length a)))%Z by lia.
    destruct (pred y); reflexivity.
Qed.

Lemma py_index_last {A} (l : list A) a :
  0 < length l -> nth_error l (length l - 1) = Some a -> py_index l (-1) = Ok a.
Proof.
  intros Hl Ha. unfold py_index.
  replace (-1 <? 0)%Z with true by reflexivity.
  replace (Z.of_nat (length l) + -1)%Z with (Z.of_nat (length l - 1)) by lia.
  destruct (Z.of_nat (length l - 1) <? 0)%Z eqn:E; [apply Z.ltb_lt in E; lia|].
  rewrite Nat2Z.id, Ha. reflexivity.
Qed.

Lemma np_where_last pred a i :
  np_where_from pred a i <> [] ->
  exists k x, py_index (np_where_from pred a i) (-1) = Ok (i + Z.of_nat k)%Z /\
    nth_error a k = Some x /\ pred x = true /\
    forall j y, k < j -> nth_error a j = Some y -> pred y = false.
Proof.
  induction a as [|x a IH] using rev_ind; intros Hne; [cbn in Hne; congruence|].
  rewrite np_where_snoc in *. destruct (pred x) eqn:Hp.
  - exists (length a), x. split; [|split; [|split]].
    + apply py_index_last; [rewrite length_app; cbn [length]; lia|].
      rewrite length_app, Nat.add_sub, nth_error_app2, Nat.sub_diag by lia. reflexivity.
    + rewrite nth_error_app2, Nat.sub_diag by lia. reflexivity.
    + exact Hp.
    + intros j y Hj Hy. assert (Hy' : j < length (a ++ [x])) by (apply nth_error_Some; congruence).
      rewrite length_app in Hy'. cbn in Hy'. lia.
  - rewrite app_nil_r in *. destruct (IH Hne) as (k & y & Hi & Hk & Hy & Hafter).
    exists k, y. split; [exact Hi|].
    assert (Hlt : k < length a) by (apply nth_error_Some; congruence).
    split; [rewrite nth_error_app1 by exact Hlt; exact Hk|]. split; [exact Hy|].
    intros j y' Hj Hj'. destruct (Nat.lt_ge_cases j (length a)) as [Hl|Hl].
    + rewrite nth_error_app1 in Hj' by exact Hl. apply (Hafter j); assumption.
    + rewrite nth_error_app2 in Hj' by exact Hl.
      destruct (j - length a) as [|n]; cbn in Hj'; [injection Hj' as <-; exact Hp|].
      destruct n; discriminate.
Qed.

Lemma np_where_nonempty pred a i x :
  In x a -> pred x = true -> np_where_from pred a i <> [].
Proof.
  revert i. induction a as [|y a IH]; intros i Hin Hp; [destruct Hin|].
  cbn [np_where_from]. destruct Hin as [<-|Hin].
  - rewrite Hp. discriminate.
  - destruct (pred y); [discriminate | apply (IH (i + 1)%Z Hin Hp)].
Qed.

Lemma set_parameter_ok s id m p :
  deref s id = Ok m ->
  set_parameter s id p =
  Ok (true, set_heap s (<[id := mk_measurement (m_path m) (m_number m)
            (map (fun kc => (fst kc, set_channel_param p (snd kc))) (m_xs m))]> (heap s))).
Proof. unfold set_parameter. intros ->. reflexivity. Qed.

Lemma set_parameter_deref s id m p :
  deref s id = Ok m ->
  exists s', set_parameter s id p = Ok (true, s') /\
    deref s' id = Ok (mk_measurement (m_path m) (m_number m)
                        (map (fun kc => (fst kc, set_channel_param p (snd kc))) (m_xs m))).
Proof.
  intros Hm. rewrite (set_parameter_ok s id m p Hm). eexists; split; [reflexivity|].
  unfold deref. cbn [heap set_heap]. rewrite lookup_insert_eq. reflexivity.
Qed.

Lemma round_at_bound n d ex : (0 < n)%Z -> (0 <= round_at n d ex <= 2 * (n # d))%Q.
Proof.
  intros Hn. unfold round_at.
  set (num := (n * 2 ^ Z.max 0 (- ex))%Z). set (den := (Zpos d * 2 ^ Z.max 0 ex)%Z).
  assert (Hden : (0 < den)%Z) by (unfold den; pose proof (Z.pow_pos_nonneg 2 (Z.max 0 ex)); lia).
  assert (Hnum : (0 <= num)%Z) by (unfold num; pose proof (Z.pow_pos_nonneg 2 (Z.max 0 (- ex))); lia).
  pose proof (Z.div_mod num den ltac:(lia)) as Hdm.
  pose proof (Z.mod_pos_bound num den Hden) as Hmod.
  assert (Hqt : (0 <= num / den)%Z) by (apply Z.div_pos; lia).
  assert (Hm : exists m, ((0 <= m)%Z /\ (m * den <= 2 * num)%Z) /\
     (match Z.compare (2 * (num mod den)) den with
      | Lt => num / den | Gt => num / den + 1
      | Eq => if Z.even (num / den) then num / den else num / den + 1 end)%Z = m).
  { destruct (Z.compare_spec (2 * (num mod den)) den);
      [destruct (Z.even (num / den))| |]; eexists; (split; [|reflexivity]); nia. }
  destruct Hm as (m & [Hm0 Hm] & ->).
  unfold pow2Q. destruct (0 <=? ex)%Z eqn:He.
  - apply Z.leb_le in He.
    assert (Hnum' : num = n) by (unfold num; rewrite Z.max_l by lia; lia).
    assert (Hden' : den = (Zpos d * 2 ^ ex)%Z) by (unfold den; rewrite Z.max_r by lia; reflexivity).
    pose proof (Z.pow_pos_nonneg 2 ex ltac:(lia) He).
    unfold Qle, Qmult, inject_Z; cbn [Qnum Qden]. split; nia.
  - apply Z.leb_gt in He.
    assert (Hnum' : num = (n * 2 ^ (- ex))%Z) by (unfold num; rewrite Z.max_r by lia; reflexivity).
    assert (Hden' : den = Zpos d) by (unfold den; rewrite Z.max_l by lia; lia).
    pose proof (Z.pow_pos_nonneg 2 (- ex) ltac:(lia) ltac:(lia)) as Hp.
    unfold Qle, Qmult, inject_Z; cbn [Qnum Qden].
    rewrite !Pos2Z.inj_mul, Z2Pos.id by exact Hp. split; nia.
Qed.

(** Rounding a non-negative rational at most doubles it. *)
Lemma round64_bound x : (0 <= x)%Q -> (0 <= round64 x <= 2 * x)%Q.
Proof.
  destruct x as [[|n|n] d]; unfold round64; cbn [Qnum Qden]; intros Hx.
  - split; unfold Qle; cbn; lia.
  - apply round_at_bound. lia.
  - unfold Qle in Hx. cbn in Hx. lia.
Qed.

Lemma round64_max_le mx : (0 <= mx)%Q -> (round64 (mx * float_0_05) <= mx)%Q.
Proof.
  intros H.
  assert (Hc : (0 <= mx * float_0_05)%Q)
    by (apply Qmult_le_0_compat; [exact H | unfold float_0_05, Qle; cbn; lia]).
  destruct (round64_bound _ Hc) as [_ H2]. apply (Qle_trans _ _ _ H2).
  unfold float_0_05. lra.
Qed.

Lemma np_where_nil pred a i :
  (forall x, In x a -> pred x = false) -> np_where_from pred a i = [].
Proof.
  revert i. induction a as [|y a IH]; intros i H; [reflexivity|].
  cbn [np_where_from]. rewrite (H y (or_introl eq_refl)).
  apply IH. intros x Hx. apply H. right. exact Hx.
Qed.

(** C5 (amended): for an active channel of the current data set,
    [get_trim_values] returns [None] and changes nothing when the channel
    has no q-array, when its normalization is [None], or when no direct
    beam is found.  Otherwise let [r] be the intensities of the direct beam
    and [t] the double [r.max() * 0.05] (the product rounded to binary64).
    An empty [r] raises [ValueError].  When no point reaches [t] (only
    possible with a negative maximum) [region[0]] raises [IndexError].
    Otherwise the result is [(p0, len r - pl - 1)], where [p0] and [pl]
    are the first and the last index with [r[i] >= t]; both values become
    the [cut_first_n_points] and [cut_last_n_points] of every channel of
    the active measurement.  On [[1;5;10;9;1]] the result is [(0,0)], and
    on [[0;0;10;0;0]] it is [(2,2)]. *)
Theorem get_trim_values_spec s ac id m :
  get_active_xs s = Ok ac -> nexus_data s = Some id -> deref s id = Ok m ->
  (xs_q ac = None -> get_trim_values s = Ok (None, s)) /\
  (normalization (xs_config ac) = PyNone -> get_trim_values s = Ok (None, s)) /\
  (xs_q ac <> None -> normalization (xs_config ac) <> PyNone ->
   (find_direct_beam s (OfChannel ac) = Ok None -> get_trim_values s = Ok (None, s)) /\
   (forall db, find_direct_beam s (OfChannel ac) = Ok (Some db) ->
     (xs_r db = [] -> get_trim_values s = Err ValueError) /\
     (xs_r db <> [] -> exists mx,
        In mx (xs_r db) /\ (forall x, In x (xs_r db) -> (x <= mx)%Q) /\
        ((0 <= mx)%Q -> (round64 (mx * float_0_05) <= mx)%Q) /\
        ((forall x, In x (xs_r db) -> (x < round64 (mx * float_0_05))%Q) ->
           get_trim_values s = Err IndexError) /\
        ((exists x, In x (xs_r db) /\ (round64 (mx * float_0_05) <= x)%Q) ->
         exists p0 pl s',
           get_trim_values s =
             Ok (Some (Z.of_nat p0, (Z.of_nat (length (xs_r db)) - Z.of_nat pl - 1)%Z), s') /\
           (exists x, nth_error (xs_r db) p0 = Some x /\ (round64 (mx * float_0_05) <= x)%Q) /\
           (forall j x, j < p0 -> nth_error (xs_r db) j = Some x ->
              (x < round64 (mx * float_0_05))%Q) /\
           (exists x, nth_error (xs_r db) pl = Some x /\ (round64 (mx * float_0_05) <= x)%Q) /\
           (forall j x, pl < j -> nth_error (xs_r db) j = Some x ->
              (x < round64 (mx * float_0_05))%Q) /\
           exists m', deref s' id = Ok m' /\ keys (m_xs m') = keys (m_xs m) /\
             forall k c, In (k, c) (m_xs m') ->
               cut_first_n_points (xs_config c) = Z.of_nat p0 /\
               cut_last_n_points (xs_config c) =
                 (Z.of_nat (length (xs_r db)) - Z.of_nat pl - 1)%Z)))) /\
  (exists s1, get_trim_values (dm_trim [1; 5; 10; 9; 1]%Q) = Ok (Some (0%Z, 0%Z), s1)) /\
  (exists s2, get_trim_values (dm_trim [0; 0; 10; 0; 0]%Q) = Ok (Some (2%Z, 2%Z), s2)).
Proof.
  intros Hac Hx Hm. split; [|split; [|split; [|split]]].
  4: { eexists. vm_compute. reflexivity. }
  4: { eexists. vm_compute. reflexivity. }
  all: unfold get_trim_values; destruct (active_channel s) eqn:Ha;
    [|unfold get_active_xs in Hac; rewrite Ha in Hac; discriminate].
  all: rewrite Hac; cbn [rbind].
  1: intros ->; reflexivity.
  1: intros ->; destruct (xs_q ac); reflexivity.
  intros Hq Hn. destruct (xs_q ac) as [q|]; [|congruence].
  destruct (normalization (xs_config ac)) as [|z|str]; [congruence| |]; cbv beta iota.
  all: split; [intros Hdb; rewrite Hdb; reflexivity|].
  all: intros db Hdb; rewrite Hdb; cbn [rbind].
  all: split; [intros Hr; rewrite Hr; reflexivity|].
  all: intros Hne.
  all: destruct (np_max_spec (xs_r db) Hne) as (mx & Hmx & Hin & Hle); rewrite Hmx; cbn [rbind].
  all: cbv zeta; unfold np_where.
  all: exists mx; split; [exact Hin|]; split; [exact Hle|]; split; [apply round64_max_le|].
  all: set (pred := fun x => Qle_bool (round64 (mx * float_0_05)) x).
  all: split; [intros Hall; rewrite np_where_nil; [reflexivity|];
               intros x Hxin; unfold pred; apply not_true_is_false; intros Hb;
               apply Qle_bool_iff in Hb; specialize (Hall x Hxin); apply (Qlt_not_le _ _ Hall Hb)|].
  all: intros (xt & Hxt & Ht).
  all: assert (Hne' : np_where_from pred (xs_r db) 0 <> []) by
         (apply (np_where_nonempty pred (xs_r db) 0 xt Hxt); apply Qle_bool_iff; exact Ht).
  all: destruct (np_where_last pred (xs_r db) 0 Hne') as (kl & xl & Hpl & Hkl & Hxl & Hafter).
  all: destruct (np_where_from pred (xs_r db) 0) as [|z0 rest] eqn:Hreg; [congruence|].
  all: destruct (np_where_first pred (xs_r db) 0 z0 rest Hreg) as (k0 & x0 & Hz & Hk0 & Hx0 & Hbefore).
  all: replace (py_index (z0 :: rest) 0) with (Ok (A := Z) z0) by reflexivity; cbn [rbind].
  all: rewrite Hpl; cbn [rbind]; rewrite Hx.
  all: destruct (set_parameter_deref s id m (P_cut_first_n_points z0) Hm) as (s1 & Hs1 & Hm1).
  all: rewrite Hs1; cbn [rbind snd].
  all: destruct (set_parameter_deref s1 id _
          (P_cut_last_n_points (Z.of_nat (length (xs_r db)) - (0 + Z.of_nat kl) - 1)) Hm1)
         as (s2 & Hs2 & Hm2).
  all: rewrite Hs2; cbn [rbind snd].
  all: exists k0, kl, s2.
  all: rewrite Hz, !Z.add_0_l.
  all: split; [reflexivity|].
  all: split; [exists x0; split; [exact Hk0 | apply Qle_bool_iff; exact Hx0]|].
  all: split; [intros j x Hj Hjx; apply Qnot_le_lt; intros Hq';
               apply Qle_bool_iff in Hq'; specialize (Hbefore j x Hj Hjx);
               unfold pred in Hbefore; congruence|].
  all: split; [exists xl; split; [exact Hkl | apply Qle_bool_iff; exact Hxl]|].
  all: split; [intros j x Hj Hjx; apply Qnot_le_lt; intros Hq';
               apply Qle_bool_iff in Hq'; specialize (Hafter j x Hj Hjx);
               unfold pred in Hafter; congruence|].
  all: eexists; split; [exact Hm2|]; cbn [m_xs].
  all: split; [unfold keys; rewrite !map_map; reflexivity|].
  all: intros k c Hkc; apply in_map_iff in Hkc as [[k1 c1] [Heq Hkc]];
    cbn [fst snd] in Heq; injection Heq as _ <-;
    apply in_map_iff in Hkc as [[k2 c2] [Heq Hkc]];
    cbn [fst snd] in Heq; injection Heq as _ <-; cbn; rewrite Hz, Z.add_0_l; split; reflexivity.
Qed.

Lemma get_trim_values_spec_witness :
  exists p0 pl s', get_trim_values (dm_trim [1; 5; 10; 9; 1]%Q) =
    Ok (Some (Z.of_nat p0, (5 - Z.of_nat pl - 1)%Z), s').
Proof.
  destruct (get_trim_values_spec (dm_trim [1; 5; 10; 9; 1]%Q) data_ch 0
              (mk_measurement "a" (PyStr "10") [("Off_Off"%string, data_ch)])
              ltac:(reflexivity) ltac:(reflexivity) ltac:(vm_compute; reflexivity))
    as (_ & _ & H3 & _).
  destruct (H3 ltac:(discriminate) ltac:(discriminate)) as [_ Hdb].
  destruct (Hdb (mk_ch "Off_Off" "30" 0 None [1; 5; 10; 9; 1]%Q) ltac:(vm_compute; reflexivity))
    as [_ Hne].
  destruct (Hne ltac:(discriminate)) as (mx & Hin & _ & Hmx & _ & Hok).
  assert (H0 : (0 <= mx)%Q) by (cbn in Hin; repeat destruct Hin as [<-|Hin]; try lra; destruct Hin).
  destruct (Hok (ex_intro _ mx (conj Hin (Hmx H0)))) as (p0 & pl & s' & Hg & _).
  exists p0, pl, s'. exact Hg.
Defined.

(** C5 (counterexample to the claim as stated).  For the doubles
    [r = [2.15, 43.0]] the result is [(0, 0)]: the double product
    [43.0 * 0.05] is the double [2.15], so the first point qualifies,
    although that double is below the exact [0.05 * 43], where the claim's
    rule makes [cut_first] 1.  An active channel without a q-array gets
    [None] although its direct beam is found.  With the intensities
    [[-1; -2]] no point reaches [0.05 * max], and the call raises
    [IndexError]. *)
Theorem get_trim_values_float_threshold :
  (exists s', get_trim_values (dm_trim [float_2_15; 43]%Q) = Ok (Some (0%Z, 0%Z), s')) /\
  (float_2_15 < (5 # 100) * 43)%Q /\
  (exists db, find_direct_beam (dm_trim_noq [1; 5; 10; 9; 1]%Q) (OfChannel data_ch_noq)
                = Ok (Some db)) /\
  get_trim_values (dm_trim_noq [1; 5; 10; 9; 1]%Q) = Ok (None, dm_trim_noq [1; 5; 10; 9; 1]%Q) /\
  get_trim_values (dm_trim [-1; -2]%Q) = Err IndexError.
Proof.
  split; [eexists; vm_compute; reflexivity|].
  split; [unfold float_2_15, Qlt; cbn; lia|].
  split; [eexists; vm_compute; reflexivity|].
  split; vm_compute; reflexivity.
Qed.

Lemma xs_of_deref s1 s2 k xs : deref s1 k = deref s2 k -> xs_of s1 k xs = xs_of s2 k xs.
Proof. unfold xs_of. intros ->. reflexivity. Qed.

Lemma np_where_first_conv pred a i k x :
  nth_error a k = Some x -> pred x = true ->
  (forall j y, j < k -> nth_error a j = Some y -> pred y = false) ->
  exists rest, np_where_from pred a i = (i + Z.of_nat k)%Z :: rest.
Proof.
  revert i k. induction a as [|y a IH]; intros i k Hk Hp Hb; [destruct k; discriminate|].
  cbn [np_where_from]. destruct k as [|k].
  - cbn in Hk. injection Hk as ->. rewrite Hp, Z.add_0_r. eexists; reflexivity.
  - rewrite (Hb 0 y ltac:(lia) eq_refl).
    destruct (IH (i + 1)%Z k Hk Hp) as [rest Hr].
    { intros j y' Hj Hy'. apply (Hb (S j)); [lia | exact Hy']. }
    exists rest. rewrite Hr. f_equal. lia.
Qed.

Lemma sorted_nth_le l j k a b :
  Sorted Qle l -> j <= k -> nth_error l j = Some a -> nth_error l k = Some b -> (a <= b)%Q.
Proof.
  intros Hs. apply (Sorted_StronglySorted (fun x y z => Qle_trans x y z)) in Hs.
  revert j k. induction Hs as [|h t Ht IH Hall]; intros j k Hjk Ha Hb;
    [destruct j; discriminate|].
  destruct j as [|j]; destruct k as [|k]; cbn in Ha, Hb.
  - injection Ha as <-. injection Hb as <-. apply Qle_refl.
  - injection Ha as <-. rewrite List.Forall_forall in Hall. apply Hall.
    apply nth_error_In in Hb. exact Hb.
  - lia.
  - apply (IH j k); [lia | exact Ha | exact Hb].
Qed.

Lemma strip_pairs_spec xs l : forall s s',
  List.NoDup l -> strip_pairs s xs l = Ok s' ->
  (forall k, ~ In k l -> deref s' k = deref s k) /\
  forall i item next ic nc iq nq qn m,
    nth_error l i = Some item -> nth_error l (S i) = Some next ->
    deref s item = Ok m -> xs_of s item xs = Ok ic -> xs_of s next xs = Ok nc ->
    xs_q ic = Some iq -> xs_q nc = Some nq ->
    py_index nq (cut_first_n_points (xs_config nc)) = Ok qn ->
    deref s' item =
      Ok (match np_where (fun x => Qle_bool qn x) iq with
          | [] => m
          | o :: _ => set_measurement_param
                        (P_cut_last_n_points (Z.of_nat (length iq) - o)%Z) m
          end).
Proof.
  induction l as [|a l IH]; intros s s' Hnd H.
  - cbn in H. injection H as <-. split; [reflexivity|].
    intros i item next ? ? ? ? ? ? Hi; destruct i; discriminate.
  - destruct l as [|b rest].
    + cbn in H. injection H as <-. split; [reflexivity|].
      intros i item next ? ? ? ? ? ? Hi Hi1; destruct i as [|[|i]]; discriminate.
    + cbn [strip_pairs] in H.
      apply rbind_ok in H as [nc0 [Hnc0 H]]. cbv zeta in H.
      apply rbind_ok in H as [ic0 [Hic0 H]].
      apply rbind_ok in H as [iq0 [Hiq0 H]].
      apply rbind_ok in H as [nq0 [Hnq0 H]].
      apply rbind_ok in H as [qn0 [Hqn0 H]].
      apply rbind_ok in H as [s1 [Hs1 H]].
      apply List.NoDup_cons_iff in Hnd as [Ha Hnd].
      destruct (IH s1 s' Hnd H) as [Hframe Hpairs].
      assert (Hma : exists ma, deref s a = Ok ma).
      { unfold xs_of in Hic0. apply rbind_ok in Hic0 as [ma [Hma _]]. eauto. }
      destruct Hma as [ma Hma].
      assert (Hs1a : deref s1 a =
        Ok (match np_where (fun x => Qle_bool qn0 x) iq0 with
            | [] => ma
            | o :: _ => set_measurement_param
                          (P_cut_last_n_points (Z.of_nat (length iq0) - o)%Z) ma
            end) /\ forall k, k <> a -> deref s1 k = deref s k).
      { destruct (np_where (fun x => Qle_bool qn0 x) iq0) as [|o os].
        - injection Hs1 as <-. split; [exact Hma | reflexivity].
        - rewrite (set_parameter_ok s a ma _ Hma) in Hs1. cbn [rbind snd] in Hs1.
          injection Hs1 as <-. unfold deref; cbn [heap set_heap].
          rewrite lookup_insert_eq. split; [reflexivity|].
          intros k Hk. rewrite lookup_insert_ne by congruence. reflexivity. }
      destruct Hs1a as [Hs1a Hs1k].
      split.
      * intros k Hk. rewrite Hframe by (intros Hin; apply Hk; right; exact Hin).
        apply Hs1k. intros ->. apply Hk. left. reflexivity.
      * intros [|i] item next ic nc iq nq qn m Hi Hi1 Hm Hic Hnc Hq Hnq Hqn.
        -- cbn in Hi, Hi1. injection Hi as <-. injection Hi1 as <-.
           rewrite Hic in Hic0. injection Hic0 as <-. rewrite Hnc in Hnc0. injection Hnc0 as <-.
           unfold q_of in Hiq0, Hnq0. rewrite Hq in Hiq0. rewrite Hnq in Hnq0.
           injection Hiq0 as <-. injection Hnq0 as <-. rewrite Hqn in Hqn0. injection Hqn0 as <-.
           rewrite Hma in Hm. injection Hm as <-.
           rewrite Hframe by exact Ha. exact Hs1a.
        -- cbn [nth_error] in Hi, Hi1.
           assert (Hitem : item <> a).
           { intros ->. apply Ha. apply nth_error_In in Hi. exact Hi. }
           assert (Hnext : next <> a).
           { intros ->. apply Ha. apply nth_error_In in Hi1. right. exact Hi1. }
           apply (Hpairs i item next ic nc iq nq qn m Hi Hi1); try assumption.
           ++ rewrite Hs1k by exact Hitem. exact Hm.
           ++ rewrite (xs_of_deref s1 s) by (apply Hs1k; exact Hitem). exact Hic.
           ++ rewrite (xs_of_deref s1 s) by (apply Hs1k; exact Hnext). exact Hnc.
Qed.

(** C6 (amended): with fewer than two measurements in the reduction list
    [strip_overlap] changes nothing.  Otherwise, for each adjacent pair
    [(item, next)] of the (duplicate-free) list, let [qn] be the q-value of
    [next]'s active cross-section at its [cut_first_n_points] index: if no
    point of [item]'s q-array is [>= qn], [item] is left unchanged;
    otherwise, with [o] the index of the FIRST such point, every channel
    of [item] gets [cut_last_n_points = len(q) - o], which excludes all the
    points from [o] on.  Those are exactly the points [>= qn] when [item]'s
    q-array is ascending. *)
Theorem strip_overlap_spec s s' :
  List.NoDup (reduction_list s) -> strip_overlap s = Ok s' ->
  (length (reduction_list s) < 2 -> s' = s) /\
  forall ac i item next ic nc iq nq qn m,
    get_active_xs s = Ok ac ->
    nth_error (reduction_list s) i = Some item ->
    nth_error (reduction_list s) (S i) = Some next ->
    deref s item = Ok m ->
    xs_of s item (xs_name ac) = Ok ic -> xs_of s next (xs_name ac) = Ok nc ->
    xs_q ic = Some iq -> xs_q nc = Some nq ->
    py_index nq (cut_first_n_points (xs_config nc)) = Ok qn ->
    ((forall x, In x iq -> (x < qn)%Q) -> deref s' item = Ok m) /\
    (forall o x, nth_error iq o = Some x -> (qn <= x)%Q ->
       (forall j y, j < o -> nth_error iq j = Some y -> (y < qn)%Q) ->
       deref s' item =
         Ok (set_measurement_param
               (P_cut_last_n_points (Z.of_nat (length iq) - Z.of_nat o)%Z) m) /\
       (Sorted Qle iq -> forall j y, nth_error iq j = Some y -> ((qn <= y)%Q <-> o <= j))).
Proof.
  intros Hnd H. unfold strip_overlap in H.
  destruct (length (reduction_list s) <? 2) eqn:Hlt.
  - injection H as <-. split; [reflexivity|].
    intros ac i item next ic nc iq nq qn m _ _ Hi1.
    apply Nat.ltb_lt in Hlt.
    assert (S i < length (reduction_list s)) by (apply nth_error_Some; congruence). lia.
  - apply rbind_ok in H as [ac0 [Hac0 H]]. split.
    { intros Hl. apply Nat.ltb_ge in Hlt. lia. }
    intros ac i item next ic nc iq nq qn m Hac Hi Hi1 Hm Hic Hnc Hq Hnq Hqn.
    rewrite Hac in Hac0. injection Hac0 as <-.
    destruct (strip_pairs_spec (xs_name ac) (reduction_list s) s s' Hnd H) as [_ Hp].
    pose proof (Hp i item next ic nc iq nq qn m Hi Hi1 Hm Hic Hnc Hq Hnq Hqn) as Hd.
    unfold np_where in Hd. split.
    + intros Hall. rewrite np_where_nil in Hd; [exact Hd|].
      intros x Hx. apply not_true_is_false. intros Hqx. apply Qle_bool_iff in Hqx.
      specialize (Hall x Hx). lra.
    + intros o x Ho Hqx Hbefore.
      destruct (np_where_first_conv (fun x => Qle_bool qn x) iq 0 o x Ho) as [rest Hw].
      { apply Qle_bool_iff. exact Hqx. }
      { intros j y Hj Hy. apply not_true_is_false. intros Hqy. apply Qle_bool_iff in Hqy.
        specialize (Hbefore j y Hj Hy). lra. }
      rewrite Hw, Z.add_0_l in Hd. split; [exact Hd|].
      intros Hsorted j y Hj. split.
      * intros Hqy. destruct (Nat.lt_ge_cases j o) as [Hjo|Hjo]; [|exact Hjo].
        specialize (Hbefore j y Hjo Hj). lra.
      * intros Hoj. pose proof (sorted_nth_le iq o j x y Hsorted Hoj Ho Hj). lra.
Qed.

Lemma strip_overlap_spec_witness :
  exists s', strip_overlap dm_overlap = Ok s' /\
    deref s' 0 = Ok (set_measurement_param (P_cut_last_n_points (3 - 1)%Z)
                       (mk_meas_q "a" [1 # 100; 5 # 100; 2 # 100])).
Proof.
  destruct (strip_overlap dm_overlap) as [s'|e] eqn:H; [|vm_compute in H; discriminate].
  exists s'. split; [reflexivity|].
  assert (Hnd : List.NoDup (reduction_list dm_overlap)).
  { cbn. constructor; [intros [H0|[]]; discriminate | constructor; [intros []|constructor]]. }
  destruct (strip_overlap_spec dm_overlap s' Hnd H) as [_ Hp].
  destruct (Hp (mk_ch "Off_Off" "10" 1 (Some [1 # 100; 5 # 100; 2 # 100]) []) 0 0 1
              (mk_ch "Off_Off" "10" 1 (Some [1 # 100; 5 # 100; 2 # 100]) [])
              (mk_ch "Off_Off" "10" 1 (Some [3 # 100; 6 # 100; 8 # 100]) [])
              [1 # 100; 5 # 100; 2 # 100] [3 # 100; 6 # 100; 8 # 100] (3 # 100)
              (mk_meas_q "a" [1 # 100; 5 # 100; 2 # 100]))
    as [_ Hover]; try (vm_compute; reflexivity).
  destruct (Hover 1 (5 # 100) eq_refl) as [Hd _].
  - vm_compute. discriminate.
  - intros [|j] y Hj Hy; [|lia]. injection Hy as <-. vm_compute. reflexivity.
  - exact Hd.
Defined.

(** C6 (counterexample to the claim as stated): the first measurement's
    q-array [[0.01; 0.05; 0.02]] is not ascending and the next one starts at
    [q = 0.03]; [strip_overlap] sets its [cut_last_n_points] to 2, so the
    point [0.02 < 0.03] is excluded although it does not overlap. *)
Lemma strip_overlap_cuts_below_next_q :
  exists s' c, strip_overlap dm_overlap = Ok s' /\ xs_of s' 0 "Off_Off" = Ok c /\
    xs_q c = Some [1 # 100; 5 # 100; 2 # 100] /\ cut_last_n_points (xs_config c) = 2%Z /\
    (2 # 100 < 3 # 100)%Q.
Proof.
  destruct (strip_overlap dm_overlap) as [s'|e] eqn:H; [|vm_compute in H; discriminate].
  destruct (xs_of s' 0 "Off_Off") as [c|e] eqn:Hc.
  - exists s', c. split; [reflexivity|]. split; [exact Hc|].
    vm_compute in H. injection H as <-. vm_compute in Hc. injection Hc as <-.
    split; [reflexivity|]. split; [reflexivity|]. vm_compute. reflexivity.
  - vm_compute in H. injection H as <-. vm_compute in Hc. discriminate.
Qed.

(** C7 (amended): with exactly two labels [[a; b]] in [reduction_states],
    [determine_asymmetry_states] returns [(a, b)] when [a] is an off/off
    label (["off_off"] or ["off-off"], any case) and [(b, a)] otherwise; so
    when exactly one of the two labels is an off/off label, that label is
    the "plus" state and the other one the "minus" state. *)
Theorem determine_asymmetry_states_two s a b :
  reduction_states s = [a; b] ->
  determine_asymmetry_states s =
    Ok (if is_off_off a then (Some a, Some b) else (Some b, Some a)) /\
  (is_off_off a <> is_off_off b ->
   exists p m, determine_asymmetry_states s = Ok (Some p, Some m) /\
     is_off_off p = true /\ is_off_off m = false /\ ((p = a /\ m = b) \/ (p = b /\ m = a))).
Proof.
  intros Hs.
  assert (Hd : determine_asymmetry_states s =
                 Ok (if is_off_off a then (Some a, Some b) else (Some b, Some a))).
  { unfold determine_asymmetry_states. rewrite Hs. cbn [rbind].
    destruct (is_off_off a); reflexivity. }
  split; [exact Hd|]. intros Hne. rewrite Hd.
  destruct (is_off_off a) eqn:Ha.
  - exists a, b. split; [reflexivity|]. split; [exact Ha|].
    split; [destruct (is_off_off b); congruence | left; split; reflexivity].
  - exists b, a. split; [reflexivity|].
    split; [destruct (is_off_off b); congruence|]. split; [exact Ha | right; split; reflexivity].
Qed.

Lemma determine_asymmetry_states_two_witness :
  determine_asymmetry_states (dm_states ["On_On"%string; "Off_Off"%string]) =
    Ok (Some "Off_Off"%string, Some "On_On"%string).
Proof.
  destruct (determine_asymmetry_states_two (dm_states ["On_On"%string; "Off_Off"%string])
              "On_On" "Off_Off" eq_refl) as [Hd _].
  rewrite Hd. reflexivity.
Defined.

(** C7 (counterexample to the claim as stated): for the labels
    [["Off_Off"; "On_On"]] the "plus" state returned is ["Off_Off"], the
    label that does match the off/off convention. *)
Lemma determine_asymmetry_states_plus_is_off_off :
  determine_asymmetry_states (dm_states ["Off_Off"%string; "On_On"%string]) =
    Ok (Some "Off_Off"%string, Some "On_On"%string) /\
  is_off_off "Off_Off" = true /\ is_off_off "On_On" = false.
Proof. split; [|split]; reflexivity. Qed.

(** C3 (divergence): the relaxed pass of [find_best_direct_beam] does not
    read each item's own run number but the [item_number] left by the last
    item of the strict pass.  With direct beams run 10 (accepted by the
    relaxed match only) and run 20 (accepted by neither match), and active
    run 11, the result is run 20, a run that no pass matched, instead of
    run 10; the normalization of the active measurement is set to 20. *)
Theorem find_best_direct_beam_stale_run_number :
  best_direct_beam E_relaxed_A dm_db = Ok (Some 20%Z) /\
  (exists s', find_best_direct_beam E_relaxed_A dm_db = Ok (true, s') /\
     exists m, deref s' 0 = Ok m /\
       Forall (fun kc => normalization (xs_config (snd kc)) = PyInt 20) (m_xs m)) /\
  direct_beam_match E_relaxed_A (mk_ch "Off_Off" "11" 1 None []) (mk_ch "A" "10" 0 None []) false = false /\
  direct_beam_match E_relaxed_A (mk_ch "Off_Off" "11" 1 None []) (mk_ch "B" "20" 0 None []) false = false /\
  direct_beam_match E_relaxed_A (mk_ch "Off_Off" "11" 1 None []) (mk_ch "A" "10" 0 None []) true = true /\
  direct_beam_match E_relaxed_A (mk_ch "Off_Off" "11" 1 None []) (mk_ch "B" "20" 0 None []) true = false.
Proof.
  split; [vm_compute; reflexivity|].
  split; [|repeat split].
  destruct (find_best_direct_beam E_relaxed_A dm_db) as [[b s']|e] eqn:H;
    vm_compute in H; [|discriminate].
  injection H as <- <-. eexists; split; [reflexivity|].
  eexists; split; [reflexivity|]. repeat constructor.
Qed.

(** C8 (divergence): [find_best_direct_beam] converts each direct beam's
    run identifier with a bare [int()], so a direct-beam-list entry whose
    identifier is not an integer (a merged run ["123+124"]) makes it raise
    [ValueError]; [_find_direct_beam] on the same manager falls back to the
    raw token and returns normally (no match). *)
Theorem find_best_direct_beam_raises_on_merged_run :
  best_direct_beam E0 dm_db_merged = Err ValueError /\
  find_best_direct_beam E0 dm_db_merged = Err ValueError /\
  py_int (PyStr "123+124") = Err ValueError /\
  int_or_keep (PyStr "123+124") = PyStr "123+124" /\
  find_direct_beam dm_db_merged (OfChannel data_ch) = Ok None.
Proof. repeat split; vm_compute; reflexivity. Qed.

(* ------------------------------------------------------------------ *)
(** ** The direct beam list *)

Lemma existsb_eqb_in x l : existsb (Nat.eqb x) l = true <-> In x l.
Proof.
  rewrite existsb_exists. split.
  - intros (y & Hy & He). apply Nat.eqb_eq in He. subst. exact Hy.
  - intros H. exists x. split; [exact H | apply Nat.eqb_refl].
Qed.

Lemma existsb_eqb_false x l : existsb (Nat.eqb x) l = false <-> ~ In x l.
Proof.
  rewrite <- existsb_eqb_in. destruct (existsb (Nat.eqb x) l); split; congruence.
Qed.

Lemma find_data_some x l i :
  find_data x l = Some i ->
  nth_error l i = Some x /\ forall j, j < i -> nth_error l j <> Some x.
Proof.
  revert i. induction l as [|y l IH]; intros i; simpl; [discriminate|].
  destruct (Nat.eqb_spec x y) as [->|Hne].
  - intros H; injection H as <-. split; [reflexivity | intros j Hj; lia].
  - destruct (find_data x l) as [i'|] eqn:Hf; simpl; [|discriminate].
    intros H; injection H as <-.
    destruct (IH i' eq_refl) as [Hn Hlt].
    split; [exact Hn|].
    intros [|j] Hj; simpl; [congruence|]. apply Hlt. lia.
Qed.

Lemma find_data_none x l : find_data x l = None <-> ~ In x l.
Proof.
  split.
  - induction l as [|y l IH]; simpl; [tauto|].
    destruct (Nat.eqb_spec x y) as [->|Hne]; [discriminate|].
    destruct (find_data x l); simpl; [discriminate|].
    intros _ [Hy|Hin]; [congruence | exact (IH eq_refl Hin)].
  - intros Hn. destruct (find_data x l) as [i|] eqn:Hf; [|reflexivity].
    exfalso. apply find_data_some in Hf. apply Hn. eapply nth_error_In. apply Hf.
Qed.

Lemma find_data_snoc x l : ~ In x l -> find_data x (l ++ [x]) = Some (length l).
Proof.
  induction l as [|y l IH]; simpl; intros Hn.
  - rewrite Nat.eqb_refl. reflexivity.
  - destruct (Nat.eqb_spec x y) as [->|Hne]; [exfalso; apply Hn; left; reflexivity|].
    rewrite IH by (intros Hin; apply Hn; right; exact Hin). reflexivity.
Qed.

Lemma remove_nth_length {A} i (l : list A) :
  i < length l -> length (remove_nth i l) = length l - 1.
Proof.
  revert i. induction l as [|a l IH]; intros [|i] Hi; simpl in *; try lia.
  rewrite IH by lia. lia.
Qed.

Lemma remove_nth_in {A} i (l : list A) y : In y (remove_nth i l) -> In y l.
Proof.
  revert i. induction l as [|a l IH]; intros [|i]; simpl; auto.
  intros [H|H]; [left; exact H | right; eapply IH; exact H].
Qed.

Lemma remove_nth_nodup {A} i (l : list A) : List.NoDup l -> List.NoDup (remove_nth i l).
Proof.
  revert i. induction l as [|a l IH]; intros [|i] Hnd; simpl; auto;
    inversion Hnd as [|? ? Ha Hl]; subst; auto.
  constructor; [intros Hin; apply Ha; eapply remove_nth_in; exact Hin | apply IH; exact Hl].
Qed.

Lemma remove_nth_notin {A} i (l : list A) x :
  List.NoDup l -> nth_error l i = Some x -> ~ In x (remove_nth i l).
Proof.
  revert i. induction l as [|a l IH]; intros [|i] Hnd Hn; simpl in *; try discriminate;
    inversion Hnd as [|? ? Ha Hl]; subst.
  - injection Hn as <-. exact Ha.
  - intros [Hax|Hin].
    + subst. apply Ha. eapply nth_error_In. exact Hn.
    + exact (IH i Hl Hn Hin).
Qed.

Lemma remove_nth_snoc {A} (l : list A) x : remove_nth (length l) (l ++ [x]) = l.
Proof. induction l as [|a l IH]; simpl; congruence. Qed.

Lemma nodup_snoc {A} (l : list A) x :
  List.NoDup l -> ~ In x l -> List.NoDup (l ++ [x]).
Proof.
  intros Hnd Hn. apply (Permutation_NoDup (Permutation_cons_append l x)).
  constructor; assumption.
Qed.

Lemma add_normalization_nodup s b s' :
  add_active_to_normalization s = Ok (b, s') ->
  List.NoDup (direct_beam_list s) ->
  List.NoDup (direct_beam_list s') /\ reduction_list s' = reduction_list s.
Proof.
  unfold add_active_to_normalization.
  destruct (nexus_data s) as [id|]; [|discriminate].
  destruct (existsb (Nat.eqb id) (direct_beam_list s)) eqn:He; simpl;
    intros H Hnd; injection H as <- <-; [auto|].
  split; [|reflexivity]. apply nodup_snoc; [exact Hnd | apply existsb_eqb_false; exact He].
Qed.


(** [remove_active_from_normalization] returns [-1] and changes nothing when
    there is no active data set or the direct beam list does not hold it;
    otherwise it returns the index of its first occurrence and pops exactly
    that entry, so the list is one shorter and, when it had no duplicates,
    no longer holds the data set. *)
Theorem remove_active_from_normalization_spec s r s' :
  remove_active_from_normalization s = (r, s') ->
  (r = (-1)%Z /\ s' = s /\
     forall id, nexus_data s = Some id -> ~ In id (direct_beam_list s)) \/
  (exists id i, nexus_data s = Some id /\ r = Z.of_nat i /\
     nth_error (direct_beam_list s) i = Some id /\
     (forall j, j < i -> nth_error (direct_beam_list s) j <> Some id) /\
     s' = set_direct_beam_list s (remove_nth i (direct_beam_list s)) /\
     length (direct_beam_list s') = length (direct_beam_list s) - 1 /\
     (List.NoDup (direct_beam_list s) -> ~ In id (direct_beam_list s'))).
Proof.
  unfold remove_active_from_normalization.
  destruct (nexus_data s) as [id|] eqn:Hx.
  - destruct (find_data id (direct_beam_list s)) as [i|] eqn:Hf;
      intros H; injection H as <- <-.
    + right. destruct (find_data_some _ _ _ Hf) as [Hn Hlt].
      exists id, i. repeat split; auto.
      * cbn. apply remove_nth_length. apply nth_error_Some. congruence.
      * intros Hnd. cbn. apply remove_nth_notin; assumption.
    + left. apply find_data_none in Hf.
      repeat split. intros id' Hid. injection Hid as <-. exact Hf.
  - intros H; injection H as <- <-. left. repeat split. intros id Hid; discriminate.
Qed.

(** Adding the active data set to a direct beam list that does not hold it,
    then removing it, returns the old length of the list as the index and
    restores the data manager exactly. *)
Theorem normalization_add_remove_round_trip s id :
  nexus_data s = Some id -> ~ In id (direct_beam_list s) ->
  exists s1, add_active_to_normalization s = Ok (true, s1) /\
    direct_beam_list s1 = direct_beam_list s ++ [id] /\
    remove_active_from_normalization s1 = (Z.of_nat (length (direct_beam_list s)), s).
Proof.
  intros Hx Hn. exists (set_direct_beam_list s (direct_beam_list s ++ [id])).
  unfold add_active_to_normalization. rewrite Hx.
  rewrite (proj2 (existsb_eqb_false _ _) Hn). simpl.
  split; [reflexivity|]. split; [reflexivity|].
  unfold remove_active_from_normalization.
  cbn [nexus_data direct_beam_list set_direct_beam_list].
  rewrite Hx, find_data_snoc by exact Hn. rewrite remove_nth_snoc.
  f_equal. destruct s; reflexivity.
Qed.

(* ------------------------------------------------------------------ *)
(** ** Selecting the active data set from a list *)

Lemma set_active_data_from_spec l s index :
  ((Z.of_nat (length l) <= index)%Z -> set_active_data_from l s index = Ok s) /\
  ((index < - Z.of_nat (length l))%Z -> set_active_data_from l s index = Err IndexError) /\
  ((- Z.of_nat (length l) <= index < Z.of_nat (length l))%Z ->
   exists id s', set_active_data_from l s index = Ok s' /\
     nth_error l (Z.to_nat (if (index <? 0)%Z then Z.of_nat (length l) + index else index))
       = Some id /\
     nexus_data s' = Some id /\
     active_channel s' = match heap s !! id with
                         | Some m => match keys (m_xs m) with
                                     | k :: _ => Some (id, k)
                                     | [] => active_channel s
                                     end
                         | None => active_channel s
                         end /\
     heap s' = heap s /\ cache s' = cache s /\ reduction_list s' = reduction_list s /\
     direct_beam_list s' = direct_beam_list s /\ reduction_states s' = reduction_states s).
Proof.
  unfold set_active_data_from. split; [|split].
  - intros H. destruct (Z.ltb_spec index (Z.of_nat (length l))); [lia | reflexivity].
  - intros H. destruct (Z.ltb_spec index (Z.of_nat (length l))); [|lia].
    unfold py_index. cbv zeta.
    destruct (Z.ltb_spec index 0); [|lia].
    destruct (Z.ltb_spec (Z.of_nat (length l) + index) 0); [reflexivity | lia].
  - intros [H1 H2]. destruct (Z.ltb_spec index (Z.of_nat (length l))); [|lia].
    set (j := if (index <? 0)%Z then (Z.of_nat (length l) + index)%Z else index).
    assert (Hj : (0 <= j < Z.of_nat (length l))%Z)
      by (unfold j; destruct (Z.ltb_spec index 0); lia).
    destruct (nth_error l (Z.to_nat j)) as [id|] eqn:Hn;
      [| apply nth_error_None in Hn; lia].
    assert (Hp : py_index l index = Ok id).
    { unfold py_index. cbv zeta. fold j.
      destruct (Z.ltb_spec j 0); [lia|]. rewrite Hn. reflexivity. }
    rewrite Hp. cbn [rbind].
    exists id, (snd (set_channel (set_nexus_data s (Some id)) 0)).
    split; [reflexivity|]. split; [reflexivity|].
    destruct (set_channel_fields (set_nexus_data s (Some id)) 0)
      as (Hh & _ & Hx & Hc & Hr & Hd & Hs).
    cbn [heap nexus_data cache reduction_list direct_beam_list reduction_states set_nexus_data]
      in Hh, Hx, Hc, Hr, Hd, Hs.
    split; [exact Hx|]. split.
    + unfold set_channel, set_nexus_data. cbn [nexus_data heap].
      destruct (heap s !! id) as [m|]; [|reflexivity].
      destruct (keys (m_xs m)) as [|k ks]; reflexivity.
    + auto.
Qed.

(** [set_active_data_from_reduction_list(index)]: an index at or past the
    end of the reduction list leaves the manager unchanged; a negative index
    passes the bound check and counts from the end, down to [-len], below
    which [IndexError] is raised; a selected data set becomes the active one
    with its first channel (the active channel stays as it was if the data
    set has no channel), and the cache, the heap and both lists are not
    touched. *)
Theorem set_active_data_from_reduction_list_index s index :
  ((Z.of_nat (length (reduction_list s)) <= index)%Z ->
     set_active_data_from_reduction_list s index = Ok s) /\
  ((index < - Z.of_nat (length (reduction_list s)))%Z ->
     set_active_data_from_reduction_list s index = Err IndexError) /\
  ((- Z.of_nat (length (reduction_list s)) <= index < Z.of_nat (length (reduction_list s)))%Z ->
   exists id s', set_active_data_from_reduction_list s index = Ok s' /\
     nth_error (reduction_list s)
       (Z.to_nat (if (index <? 0)%Z then Z.of_nat (length (reduction_list s)) + index else index))
       = Some id /\
     nexus_data s' = Some id /\
     active_channel s' = match heap s !! id with
                         | Some m => match keys (m_xs m) with
                                     | k :: _ => Some (id, k)
                                     | [] => active_channel s
                                     end
                         | None => active_channel s
                         end /\
     heap s' = heap s /\ cache s' = cache s /\ reduction_list s' = reduction_list s /\
     direct_beam_list s' = direct_beam_list s /\ reduction_states s' = reduction_states s).
Proof. exact (set_active_data_from_spec (reduction_list s) s index). Qed.


(* ------------------------------------------------------------------ *)
(** ** More on [load] *)

Lemma load_finish_fields E s p id fc conf rl db b s1 c1 :
  load_finish E s p id fc conf rl db = Ok (b, s1, c1) ->
  nexus_data s1 = Some id /\
  current_directory s1 = fst (split_path E p) /\
  current_file_name s1 = Some (snd (split_path E p)) /\
  next_id s1 = next_id s /\
  (forall k, paths (heap s1) k = paths (heap s) k) /\
  (fc = true -> b = true /\ heap s1 = heap s /\ cache s1 = cache s /\
     reduction_list s1 = reduction_list s /\ direct_beam_list s1 = direct_beam_list s) /\
  (fc = false -> b = false /\ cache s1 = cache_push (cache s) id /\
     reduction_list s1 = replace_at rl id (reduction_list s) /\
     direct_beam_list s1 = replace_at db id (direct_beam_list s)).
Proof.
  unfold load_finish.
  destruct (split_path E p) as [d f]. cbn [fst snd].
  set (s2 := snd (set_channel (set_current_file (set_nexus_data s (Some id)) d (Some f)) 0)).
  assert (F2 : nexus_data s2 = Some id /\ current_directory s2 = d /\
               current_file_name s2 = Some f /\ next_id s2 = next_id s /\
               heap s2 = heap s /\ cache s2 = cache s /\
               reduction_list s2 = reduction_list s /\
               direct_beam_list s2 = direct_beam_list s).
  { unfold s2.
    destruct (set_channel_shape (set_current_file (set_nexus_data s (Some id)) d (Some f)) 0)
      as [-> | [a ->]]; fields. }
  destruct F2 as (Hx & Hd & Hf & Hn & Hh & Hc & Hr & Hb).
  destruct fc.
  - intros H. injection H as <- <- <-.
    split; [exact Hx|]. split; [exact Hd|]. split; [exact Hf|]. split; [exact Hn|].
    split; [intros k; rewrite Hh; reflexivity|].
    split; [intros _; auto | intros Hft; discriminate].
  - intros H. apply rbind_ok in H. destruct H as ([b' s3] & Hfb & H).
    assert (Hs3 : exists h, s3 = set_heap s2 h /\ forall k, paths h k = paths (heap s2) k).
    { destruct (_ && _); [eapply find_best_shape; eauto|].
      injection Hfb as _ <-. exists (heap s2); split; [symmetry; apply set_heap_self | reflexivity]. }
    destruct Hs3 as (h3 & -> & Hp3).
    cbn [snd] in H.
    match type of H with
    | context [calculate_reflectivity_caught E ?t id] =>
        destruct (calc_shape E t id) as (h4 & Hc4 & Hp4)
    end.
    rewrite Hc4 in H. cbn in H.
    injection H as <- <- <-.
    cbn. rewrite Hx, Hd, Hf, Hn, Hc, Hr, Hb.
    repeat split; auto; try discriminate.
    intros k. rewrite Hp4, Hp3, Hh. reflexivity.
Qed.

Lemma load_fresh_fields E s p conf rl db b s1 c1 :
  load_fresh E s p conf rl db = Ok (b, s1, c1) ->
  b = false /\ next_id s1 = S (next_id s) /\ nexus_data s1 = Some (next_id s) /\
  paths (heap s1) (next_id s) = Some p /\
  (forall k, k <> next_id s -> paths (heap s1) k = paths (heap s) k) /\
  cache s1 = cache_push (cache s) (next_id s) /\
  current_directory s1 = fst (split_path E p) /\
  current_file_name s1 = Some (snd (split_path E p)) /\
  reduction_list s1 = replace_at rl (next_id s) (reduction_list s) /\
  direct_beam_list s1 = replace_at db (next_id s) (direct_beam_list s).
Proof.
  unfold load_fresh. intros H. apply rbind_ok in H.
  destruct H as ([[conf' num] xs] & Hl & H).
  cbv beta iota zeta in H.
  apply load_finish_fields in H. cbn in H.
  destruct H as (Hx & Hd & Hf & Hn & Hp & _ & Hmiss).
  destruct (Hmiss eq_refl) as (-> & Hc & Hr & Hb).
  repeat split; auto.
  - rewrite Hp. unfold paths. rewrite lookup_insert_eq. reflexivity.
  - intros k Hk. rewrite Hp. unfold paths. rewrite lookup_insert_ne; auto.
Qed.

Lemma current_file_of s n p :
  nexus_data s = Some n -> paths (heap s) n = Some p -> current_file s = Ok (Some p).
Proof.
  unfold current_file, deref, paths. intros -> Hp.
  destruct (heap s !! n) as [m|]; simpl in *; [|discriminate].
  injection Hp as ->. reflexivity.
Qed.

Lemma in_cache_push c x : In x (cache_push c x).
Proof. rewrite cache_push_eq. apply in_or_app. right. left. reflexivity. Qed.

(** [clear_cache] empties the cache, so the next [load] reads the file
    again whatever was loaded before ([is_from_cache] is [False]) and leaves
    the new measurement as the only cache entry. *)
Theorem clear_cache_then_load E s path c f b s1 c1 :
  load E (clear_cache s) path c f = Ok (b, s1, c1) ->
  get_cachesize (clear_cache s) = 0 /\ b = false /\
  nexus_data s1 = Some (next_id s) /\ cache s1 = [next_id s] /\ get_cachesize s1 = 1.
Proof.
  intros H. rewrite load_on_miss in H by reflexivity.
  apply load_fresh_fields in H.
  destruct H as (-> & _ & Hx & _ & _ & Hc & _).
  cbn in Hx, Hc. unfold get_cachesize. rewrite Hc. auto.
Qed.

(** After any successful [load], the loaded file (its canonical path) is
    the [current_file], [current_directory] and [current_file_name] are the
    two parts of that path, and the active data set is held by the cache. *)
Theorem load_sets_current_file E s path c f b s1 c1 :
  load E s path c f = Ok (b, s1, c1) ->
  current_file s1 = Ok (Some (canonical_path E path)) /\
  current_directory s1 = fst (split_path E (canonical_path E path)) /\
  current_file_name s1 = Some (snd (split_path E (canonical_path E path))) /\
  exists id, nexus_data s1 = Some id /\ In id (cache s1).
Proof.
  unfold load. set (p := canonical_path E path).
  intros H. apply rbind_ok in H. destruct H as (found & Hs & H).
  destruct found as [[i id]|]; [destruct f|].
  - apply load_fresh_fields in H.
    destruct H as (_ & _ & Hx & Hp & _ & Hc & Hd & Hf & _).
    split; [exact (current_file_of _ _ _ Hx Hp)|]. split; [exact Hd|]. split; [exact Hf|].
    eexists; split; [exact Hx|]. rewrite Hc. apply in_cache_push.
  - apply load_finish_fields in H.
    destruct H as (Hx & Hd & Hf & _ & Hp & Hhit & _).
    destruct (Hhit eq_refl) as (_ & _ & Hc & _).
    apply cache_search_some in Hs. destruct Hs as (Hi & Hpid).
    split; [apply (current_file_of _ id); [exact Hx | rewrite Hp; exact Hpid]|].
    split; [exact Hd|]. split; [exact Hf|].
    exists id. split; [exact Hx|]. rewrite Hc. eapply nth_error_In. exact Hi.
  - apply load_fresh_fields in H.
    destruct H as (_ & _ & Hx & Hp & _ & Hc & Hd & Hf & _).
    split; [exact (current_file_of _ _ _ Hx Hp)|]. split; [exact Hd|]. split; [exact Hf|].
    eexists; split; [exact Hx|]. rewrite Hc. apply in_cache_push.
Qed.

Lemma map_remove_nth {A B} (f : A -> B) i l :
  map f (remove_nth i l) = remove_nth i (map f l).
Proof.
  revert i. induction l as [|a l IH]; intros [|i]; simpl; try reflexivity.
  rewrite IH. reflexivity.
Qed.

Lemma remove_nth_length_le {A} i (l : list A) : length (remove_nth i l) <= length l.
Proof.
  revert i. induction l as [|a l IH]; intros [|i]; simpl; try lia.
  specialize (IH i). lia.
Qed.

Lemma nodup_map_skipn {A B} (f : A -> B) n l :
  List.NoDup (map f l) -> List.NoDup (map f (skipn n l)).
Proof.
  intros H. rewrite <- (firstn_skipn n l), map_app in H.
  exact (NoDup_app_remove_l _ _ H).
Qed.

(** A fresh load into a state whose cache is sound and holds no entry
    for [p] keeps the cache sound. *)
Lemma load_fresh_cache_ok E s p conf rl db b s1 c1 :
  cache_ok s ->
  (forall k, In k (cache s) -> paths (heap s) k <> Some p) ->
  load_fresh E s p conf rl db = Ok (b, s1, c1) ->
  cache_ok s1.
Proof.
  intros (Hlen & Hin & Hnd) Hnot H.
  apply load_fresh_fields in H.
  destruct H as (_ & Hn1 & _ & Hp1 & Hk1 & Hc1 & _).
  assert (Hsame : forall k, In k (cache s) -> paths (heap s1) k = paths (heap s) k).
  { intros k Hk. apply Hk1. specialize (Hin k Hk). lia. }
  unfold cache_ok. rewrite Hc1, cache_push_eq.
  split; [rewrite length_app, length_skipn; simpl; unfold MAX_CACHE in *; lia|].
  split.
  - intros k Hk. rewrite Hn1. apply in_app_or in Hk as [Hk|[<-|[]]].
    + apply in_skipn_in in Hk. destruct (Hin k Hk) as [Hlt Hp].
      rewrite Hsame by exact Hk. split; [lia | exact Hp].
    + rewrite Hp1. split; [lia | discriminate].
  - rewrite map_app. cbn [map]. rewrite Hp1.
    rewrite (map_ext_in (paths (heap s1)) (paths (heap s)))
      by (intros k Hk; apply Hsame; eapply in_skipn_in; exact Hk).
    apply nodup_snoc; [apply nodup_map_skipn; exact Hnd|].
    intros Hm. apply in_map_iff in Hm as (k & Hk & Hkin).
    apply in_skipn_in in Hkin. exact (Hnot k Hkin Hk).
Qed.

(** The cache stays sound through every [load] (a hit, a miss or a forced
    reload): it holds at most [MAX_CACHE] entries, every entry is a live
    measurement, and no two entries have the same file path.  An empty
    cache (after [clear_cache]) is sound. *)
Theorem load_keeps_cache_ok E s path c f b s1 c1 :
  cache_ok (clear_cache s) /\
  (cache_ok s -> load E s path c f = Ok (b, s1, c1) -> cache_ok s1).
Proof.
  split.
  { split; [cbn; unfold MAX_CACHE; lia|]. split; [intros k []|constructor]. }
  intros Hok H. unfold load in H. set (p := canonical_path E path) in *.
  apply rbind_ok in H. destruct H as (found & Hs & H).
  destruct found as [[i id]|]; [destruct f|].
  - apply cache_search_some in Hs. destruct Hs as (Hi & Hpid).
    destruct Hok as (Hlen & Hin & Hnd).
    assert (Hnd' : List.NoDup (map (paths (heap s)) (remove_nth i (cache s)))).
    { rewrite map_remove_nth. apply remove_nth_nodup. exact Hnd. }
    eapply load_fresh_cache_ok; [| | exact H].
    + unfold cache_ok. cbn [cache heap next_id set_cache].
      split; [pose proof (remove_nth_length_le i (cache s)); lia|].
      split; [intros k Hk; apply Hin; eapply remove_nth_in; exact Hk | exact Hnd'].
    + cbn [cache heap set_cache]. intros k Hk Hkp.
      assert (Hnth : nth_error (map (paths (heap s)) (cache s)) i = Some (Some p))
        by (rewrite nth_error_map, Hi; cbn; rewrite Hpid; reflexivity).
      apply (remove_nth_notin i _ _ Hnd Hnth).
      rewrite <- map_remove_nth, <- Hkp. apply in_map. exact Hk.
  - apply load_finish_fields in H.
    destruct H as (_ & _ & _ & Hn & Hp & Hhit & _).
    destruct (Hhit eq_refl) as (_ & Hh & Hc & _).
    destruct Hok as (Hlen & Hin & Hnd).
    unfold cache_ok. rewrite Hh, Hc, Hn. auto.
  - apply cache_search_none in Hs.
    eapply load_fresh_cache_ok; [exact Hok | | exact H].
    intros k Hk Hkp. apply List.Forall_forall with (x := k) in Hs; [|exact Hk].
    destruct Hs as (q & Hq & Hqp). congruence.
Qed.

Lemma replace_first_nodup x y l :
  List.NoDup l ->
  replace_at (find_data x l) y l = map (fun k => if Nat.eqb k x then y else k) l.
Proof.
  induction l as [|a l IH]; simpl; intros Hnd; [reflexivity|].
  inversion Hnd as [|? ? Ha Hl]; subst.
  destruct (Nat.eqb_spec x a) as [->|Hne].
  - cbn. rewrite Nat.eqb_refl. f_equal.
    clear IH Hl Hnd. induction l as [|b l IHl]; [reflexivity|]. cbn.
    destruct (Nat.eqb_spec b a) as [->|Hb]; [exfalso; apply Ha; left; reflexivity|].
    f_equal. apply IHl. intros Hin; apply Ha; right; exact Hin.
  - destruct (Nat.eqb_spec a x) as [Hax|_]; [congruence|].
    specialize (IH Hl). destruct (find_data x l) as [j|]; cbn in *.
    + rewrite <- IH. reflexivity.
    + rewrite <- IH. reflexivity.
Qed.

(** [load] with [force=True] on a cached path builds a new measurement,
    drops the old object from the cache and puts the new one in its place
    in the reduction list and in the direct beam list (when these lists
    have no duplicates, every reference to the old object is replaced). *)
Theorem load_force_replaces E s path c i old b s1 c1 :
  cache_ok s ->
  cache_search s (canonical_path E path) (cache s) = Ok (Some (i, old)) ->
  List.NoDup (reduction_list s) -> List.NoDup (direct_beam_list s) ->
  load E s path c true = Ok (b, s1, c1) ->
  b = false /\ nexus_data s1 = Some (next_id s) /\ old <> next_id s /\
  reduction_list s1 = map (fun k => if Nat.eqb k old then next_id s else k) (reduction_list s) /\
  direct_beam_list s1 = map (fun k => if Nat.eqb k old then next_id s else k) (direct_beam_list s) /\
  ~ In old (cache s1) /\ In (next_id s) (cache s1).
Proof.
  intros (Hlen & Hin & Hnd) Hs Hr Hd H.
  unfold load in H. rewrite Hs in H. cbn [rbind] in H.
  apply load_fresh_fields in H. cbn [next_id cache reduction_list direct_beam_list set_cache] in H.
  destruct H as (-> & _ & Hx & _ & _ & Hc & _ & _ & Hr1 & Hd1).
  apply cache_search_some in Hs. destruct Hs as (Hi & _).
  assert (Hlt : old < next_id s) by (apply Hin; eapply nth_error_In; exact Hi).
  split; [reflexivity|]. split; [exact Hx|]. split; [lia|].
  rewrite Hr1, Hd1, !replace_first_nodup by assumption.
  split; [reflexivity|]. split; [reflexivity|].
  rewrite Hc. split; [|apply in_cache_push].
  rewrite cache_push_eq. intros Hold. apply in_app_or in Hold as [Hold|[Hold|[]]]; [|lia].
  apply in_skipn_in in Hold. revert Hold.
  apply remove_nth_notin; [|exact Hi].
  exact (NoDup_map_inv _ _ Hnd).
Qed.

(* ------------------------------------------------------------------ *)
(** ** Direct beams *)

Lemma scan_direct_beams_last s norm items ms acc :
  Forall2 (fun id m => heap s !! id = Some m) items ms ->
  scan_direct_beams s norm items acc =
    Ok (match rev (flat_map (fun m =>
                    if py_eq (int_or_keep (m_number m)) (int_or_keep norm)
                    then match m_xs m with [] => [] | (_, ch) :: _ => [ch] end
                    else []) ms) with
        | [] => acc
        | ch :: _ => Some ch
        end).
Proof.
  intros Hall. revert acc. induction Hall as [|id m items ms Hm Hall IH]; intros acc;
    [reflexivity|].
  cbn [scan_direct_beams flat_map]. unfold deref. rewrite Hm. cbn [rbind].
  rewrite rev_app_distr.
  destruct (py_eq (int_or_keep (m_number m)) (int_or_keep norm));
    [destruct (m_xs m) as [|[k ch] xs]|]; rewrite IH; cbn [rev app];
    destruct (rev _) as [|c cs]; reflexivity.
Qed.

(** [_find_direct_beam] for a channel normalised by a run: when every entry
    of the direct beam list is a live measurement it never raises, and it
    returns the first channel of the LAST entry whose run number equals the
    normalization run (both compared after [int()] where it parses; an
    entry with no channel is skipped), or [None] when there is none. *)
Theorem find_direct_beam_last_match s c ms :
  Forall2 (fun id m => heap s !! id = Some m) (direct_beam_list s) ms ->
  normalization (xs_config c) <> PyNone ->
  find_direct_beam s (OfChannel c) =
    Ok (match rev (flat_map (fun m =>
                    if py_eq (int_or_keep (m_number m)) (int_or_keep (normalization (xs_config c)))
                    then match m_xs m with [] => [] | (_, ch) :: _ => [ch] end
                    else []) ms) with
        | [] => None
        | ch :: _ => Some ch
        end).
Proof.
  intros Hall Hn. unfold find_direct_beam.
  destruct (normalization (xs_config c)) as [|z|str]; [congruence| |];
    apply scan_direct_beams_last; exact Hall.
Qed.

Lemma strict_pass_fold E s ac active items ms ns closest inum :
  Forall2 (fun id m => heap s !! id = Some m) items ms ->
  Forall2 (fun m n => py_int (m_number m) = Ok n) ms ns ->
  exists last,
    strict_pass E s ac active items closest inum =
      Ok (fold_left (upd_closest active)
            (flat_map (fun mn => match m_xs (fst mn) with
                                 | [] => []
                                 | (_, ch) :: _ =>
                                     if direct_beam_match E ac ch false then [snd mn] else []
                                 end) (combine ms ns)) closest, last).
Proof.
  intros Hall. revert ns closest inum.
  induction Hall as [|id m items ms Hm Hall IH]; intros ns closest inum Hns.
  - inversion Hns; subst. eexists; reflexivity.
  - inversion Hns as [|? n ? ns' Hn Hns']; subst.
    cbn [strict_pass combine flat_map fst snd]. unfold deref. rewrite Hm. cbn [rbind].
    rewrite Hn. cbn [rbind].
    destruct (m_xs m) as [|[k ch] xs]; [apply IH; exact Hns'|].
    destruct (direct_beam_match E ac ch false); cbn [app fold_left]; apply IH; exact Hns'.
Qed.

Lemma fold_closest_spec active l :
  l <> [] ->
  exists i n, fold_left (upd_closest active) l None = Some n /\ nth_error l i = Some n /\
    (forall j n', nth_error l j = Some n' -> (dist n active <= dist n' active)%Z) /\
    (forall j n', j < i -> nth_error l j = Some n' -> (dist n active < dist n' active)%Z).
Proof.
  induction l as [|x l IH] using rev_ind; [congruence|]. intros _.
  rewrite fold_left_app. cbn [fold_left].
  assert (Hcase : l = [] \/ l <> []) by (destruct l; [left; reflexivity | right; discriminate]).
  destruct Hcase as [->|Hne].
  - exists 0, x. cbn. split; [reflexivity|]. split; [reflexivity|].
    split; [intros [|j] n' H; [injection H as <-; lia | destruct j; discriminate]|].
    intros j n' Hj; lia.
  - destruct (IH Hne) as (i0 & n0 & Hf & Hi0 & Hle & Hlt).
    rewrite Hf. unfold upd_closest at 1. cbn [update_closest].
    assert (Hi0l : i0 < length l) by (apply nth_error_Some; congruence).
    assert (Hsplit : forall j n', nth_error (l ++ [x]) j = Some n' ->
                       (j < length l /\ nth_error l j = Some n') \/ (j = length l /\ n' = x)).
    { intros j n' Hj. destruct (Nat.lt_ge_cases j (length l)) as [Hl|Hg].
      - left. rewrite nth_error_app1 in Hj by exact Hl. auto.
      - right. rewrite nth_error_app2 in Hj by exact Hg.
        destruct (j - length l) as [|k] eqn:Hk; [|destruct k; discriminate].
        injection Hj as <-. split; [lia | reflexivity]. }
    destruct (Z.ltb_spec (dist x active) (dist n0 active)) as [Hx|Hx].
    + exists (length l), x. split; [reflexivity|].
      split; [rewrite nth_error_app2, Nat.sub_diag by lia; reflexivity|].
      split.
      * intros j n' Hj. apply Hsplit in Hj as [[_ Hj]|[_ ->]]; [|lia].
        specialize (Hle j n' Hj). lia.
      * intros j n' Hjl Hj. apply Hsplit in Hj as [[_ Hj]|[Hj _]]; [|lia].
        specialize (Hle j n' Hj). lia.
    + exists i0, n0. split; [reflexivity|].
      split; [rewrite nth_error_app1 by exact Hi0l; exact Hi0|].
      split.
      * intros j n' Hj. apply Hsplit in Hj as [[_ Hj]|[_ ->]]; [exact (Hle j n' Hj) | lia].
      * intros j n' Hjl Hj. apply Hsplit in Hj as [[_ Hj]|[Hj _]]; [exact (Hlt j n' Hjl Hj)|lia].
Qed.

(** The first pass of [find_best_direct_beam]: when every direct beam is a
    live measurement whose run number [int()] accepts, and the instrument's
    strict match ([skip_slits=False]) accepts the first channel of at least
    one of them, [closest] is the run number of an accepted direct beam
    nearest to the active run number, the earliest one in list order among
    equally near ones; the second pass does not run. *)
Theorem find_best_direct_beam_strict_nearest E s ac active ms ns :
  get_active_xs s = Ok ac ->
  hd_error (run_numbers E (xs_number ac)) = Some active ->
  Forall2 (fun id m => heap s !! id = Some m) (direct_beam_list s) ms ->
  Forall2 (fun m n => py_int (m_number m) = Ok n) ms ns ->
  flat_map (fun mn => match m_xs (fst mn) with
                      | [] => []
                      | (_, ch) :: _ => if direct_beam_match E ac ch false then [snd mn] else []
                      end) (combine ms ns) <> [] ->
  exists i n, best_direct_beam E s = Ok (Some n) /\
    nth_error (flat_map (fun mn => match m_xs (fst mn) with
                      | [] => []
                      | (_, ch) :: _ => if direct_beam_match E ac ch false then [snd mn] else []
                      end) (combine ms ns)) i = Some n /\
    (forall j n', nth_error (flat_map (fun mn => match m_xs (fst mn) with
                      | [] => []
                      | (_, ch) :: _ => if direct_beam_match E ac ch false then [snd mn] else []
                      end) (combine ms ns)) j = Some n' -> (dist n active <= dist n' active)%Z) /\
    (forall j n', j < i -> nth_error (flat_map (fun mn => match m_xs (fst mn) with
                      | [] => []
                      | (_, ch) :: _ => if direct_beam_match E ac ch false then [snd mn] else []
                      end) (combine ms ns)) j = Some n' -> (dist n active < dist n' active)%Z).
Proof.
  intros Hac Hact Hall Hns Hne.
  destruct (strict_pass_fold E s ac active (direct_beam_list s) ms ns None None Hall Hns)
    as (last & Hsp).
  destruct (fold_closest_spec active _ Hne) as (i & n & Hf & Hrest).
  exists i, n. split; [|exact Hrest].
  unfold best_direct_beam. rewrite Hac. cbn [rbind].
  destruct (run_numbers E (xs_number ac)) as [|a rest]; [discriminate|].
  cbn in Hact. injection Hact as ->. cbn [rbind].
  rewrite Hsp. cbn [rbind]. rewrite Hf. reflexivity.
Qed.

(* ------------------------------------------------------------------ *)
(** ** Asymmetry states with three labels or more *)

Lemma last_default {A} (l : list A) x d1 d2 : List.last (x :: l) d1 = List.last (x :: l) d2.
Proof.
  revert x. induction l as [|y l IH]; intros x; [reflexivity|].
  change (List.last (y :: l) d1 = List.last (y :: l) d2). apply IH.
Qed.

(** With three or more channel labels, [determine_asymmetry_states]
    returns the first and the last label whenever it returns: the off/on
    name heuristics and the ["++"]/["--"] label search only ever produce
    [(None, None)], which the final fallback replaces. *)
Theorem determine_asymmetry_states_many s p m :
  2 < length (reduction_states s) ->
  determine_asymmetry_states s = Ok (p, m) ->
  p = hd_error (reduction_states s) /\ m = Some (List.last (reduction_states s) EmptyString).
Proof.
  intros Hlen. unfold determine_asymmetry_states.
  destruct (reduction_states s) as [|a [|b [|c rest]]]; cbn [length] in Hlen; try lia.
  intros H. apply rbind_ok in H as (pm & Hpm & H).
  assert (Hnn : pm = (None, None)).
  { cbv beta iota in Hpm.
    repeat match type of Hpm with
           | context [fold_left ?f ?l None] => destruct (fold_left f l None)
           end;
      try (injection Hpm as <-; reflexivity);
      apply rbind_ok in Hpm as (r & _ & Hpm); injection Hpm as <-; reflexivity. }
  subst pm. cbv beta iota in H. injection H as <- <-. split; [reflexivity|].
  f_equal. pose proof (last_default (b :: c :: rest) a a EmptyString) as Hl.
  cbn in Hl |- *. exact Hl.
Qed.

(* ------------------------------------------------------------------ *)
(** ** The reduction list holds each measurement once *)

Lemma insert_by_theta_split s x theta l l' :
  insert_by_theta s x theta l = Ok l' ->
  exists i, i <= length l /\ l' = firstn i l ++ x :: skipn i l.
Proof.
  revert l'. induction l as [|y l IH]; intros l' H; cbn in H.
  - injection H as <-. exists 0. split; [lia | reflexivity].
  - apply rbind_ok in H as (m & _ & H). apply rbind_ok in H as (t & _ & H).
    destruct (Qle_bool theta t).
    + injection H as <-. exists 0. split; [lia | reflexivity].
    + apply rbind_ok in H as (r & Hr & H). injection H as <-.
      destruct (IH r Hr) as (i & Hi & ->). exists (S i). split; [cbn; lia | reflexivity].
Qed.

Lemma add_reduction_true s s' :
  add_active_to_reduction s = Ok (true, s') ->
  exists id m, nexus_data s = Some id /\ heap s !! id = Some m /\
    ~ In id (reduction_list s) /\
    (exists i, i <= length (reduction_list s) /\
       reduction_list s' = firstn i (reduction_list s) ++ id :: skipn i (reduction_list s)) /\
    heap s' = heap s /\ direct_beam_list s' = direct_beam_list s /\
    reduction_states s' = (if reduction_list s then keys (m_xs m) else reduction_states s).
Proof.
  unfold add_active_to_reduction.
  destruct (nexus_data s) as [id|]; [|discriminate].
  destruct (existsb (Nat.eqb id) (reduction_list s)) eqn:He;
    [intros H; injection H as Hb _; discriminate|].
  intros H. apply rbind_ok in H as [ok [_ H]]. destruct ok; [|injection H as Hb _; discriminate].
  apply rbind_ok in H as [m [Hm H]]. cbv zeta in H.
  apply rbind_ok in H as [t [Ht H]]. apply rbind_ok in H as [l [Hl H]]. injection H as <-.
  unfold deref in Hm. destruct (heap s !! id) as [m'|] eqn:Hh; [injection Hm as ->|discriminate].
  exists id, m. split; [reflexivity|]. split; [exact Hh|].
  split; [apply existsb_eqb_false; exact He|].
  apply insert_by_theta_split in Hl.
  destruct (reduction_list s) eqn:Hr; cbn [reduction_list set_reduction_list set_reduction_states] in Hl |- *;
    rewrite ?Hr in Hl; (split; [exact Hl|]); auto.
Qed.

Lemma add_reduction_nodup s b s' :
  add_active_to_reduction s = Ok (b, s') ->
  List.NoDup (reduction_list s) ->
  List.NoDup (reduction_list s') /\ direct_beam_list s' = direct_beam_list s /\
  (exists id, nexus_data s = Some id).
Proof.
  intros H Hnd. destruct b.
  - destruct (add_reduction_true s s' H) as (id & m & Hx & _ & Hn & Hp & _ & Hd & _).
    split; [|split; [exact Hd | exists id; exact Hx]].
    destruct Hp as (i & _ & ->). apply (Permutation_NoDup (l := id :: reduction_list s)).
    + rewrite <- (firstn_skipn i (reduction_list s)) at 1. apply Permutation_middle.
    + constructor; assumption.
  - rewrite (add_false s s' H). split; [exact Hnd|]. split; [reflexivity|].
    revert H. unfold add_active_to_reduction.
    destruct (nexus_data s) as [id|]; [intros _; exists id; reflexivity | discriminate].
Qed.

(** [add_active_to_reduction] adds the active measurement at most once: on
    [True] it was not in the reduction list and the new list is the old one
    with it inserted at some position, the old entries in their order; the first
    addition fixes [reduction_states] to its channel names, and later ones
    keep them; on [False] nothing changes.  So the list never holds the
    same measurement twice. *)
Theorem add_active_to_reduction_once s b s' :
  add_active_to_reduction s = Ok (b, s') ->
  (b = false -> s' = s) /\
  (b = true -> exists id m, nexus_data s = Some id /\ heap s !! id = Some m /\
      ~ In id (reduction_list s) /\
      (exists i, i <= length (reduction_list s) /\
         reduction_list s' = firstn i (reduction_list s) ++ id :: skipn i (reduction_list s)) /\
      heap s' = heap s /\
      reduction_states s' = (if reduction_list s then keys (m_xs m) else reduction_states s)) /\
  (List.NoDup (reduction_list s) -> List.NoDup (reduction_list s')).
Proof.
  intros H.
  split; [intros ->; exact (add_false s s' H)|].
  split; [|intros Hnd; exact (proj1 (add_reduction_nodup s b s' H Hnd))].
  intros ->. destruct (add_reduction_true s s' H) as (id & m & Hx & Hm & Hn & Hp & Hh & _ & Hs).
  exists id, m. repeat split; assumption.
Qed.

Lemma load_keeps_lists E s path c b s1 c1 :
  load E s path c false = Ok (b, s1, c1) ->
  reduction_list s1 = reduction_list s /\ direct_beam_list s1 = direct_beam_list s.
Proof.
  unfold load. intros H. apply rbind_ok in H. destruct H as (found & _ & H).
  destruct found as [[i id]|].
  - apply load_finish_fields in H. destruct H as (_ & _ & _ & _ & _ & Hhit & _).
    destruct (Hhit eq_refl) as (_ & _ & _ & Hr & Hd). auto.
  - apply load_fresh_fields in H. destruct H as (_ & _ & _ & _ & _ & _ & _ & _ & Hr & Hd).
    auto.
Qed.

Lemma update_active_configuration_lists u s conf s' :
  update_active_configuration u s conf = Ok s' ->
  reduction_list s' = reduction_list s /\ direct_beam_list s' = direct_beam_list s.
Proof.
  unfold update_active_configuration. destruct (nexus_data s); [|discriminate].
  intros H. apply rbind_ok in H as (m & _ & H). injection H as <-. auto.
Qed.

Lemma calculate_reflectivity_lists E s s' :
  calculate_reflectivity E s = Ok s' ->
  reduction_list s' = reduction_list s /\ direct_beam_list s' = direct_beam_list s.
Proof.
  unfold calculate_reflectivity. destruct (nexus_data s); [|discriminate].
  intros H. apply rbind_ok in H as (m & _ & H). apply rbind_ok in H as (db & _ & H).
  apply rbind_ok in H as (xs & _ & H). injection H as <-. auto.
Qed.

Lemma load_db_files_nodup E is_file u files : forall s c s' c',
  List.NoDup (reduction_list s) -> List.NoDup (direct_beam_list s) ->
  load_db_files E is_file u s c files = Ok (s', c') ->
  List.NoDup (reduction_list s') /\ List.NoDup (direct_beam_list s').
Proof.
  induction files as [|[[r_id run_file] conf] rest IH]; intros s c s' c' Hr Hd H.
  - cbn in H. injection H as <- <-. auto.
  - cbn [load_db_files] in H. destruct (is_file run_file); [|exact (IH s c s' c' Hr Hd H)].
    apply rbind_ok in H as ([[b s1] c1] & Hl & H).
    destruct (load_keeps_lists E s run_file conf b s1 c1 Hl) as [Hr1 Hd1].
    apply rbind_ok in H as ([s2 c2] & H2 & H).
    assert (Hl2 : reduction_list s2 = reduction_list s /\ direct_beam_list s2 = direct_beam_list s).
    { destruct b.
      - apply rbind_ok in H2 as (c3 & _ & H2). apply rbind_ok in H2 as (s3 & H3 & H2).
        injection H2 as <- _. apply update_active_configuration_lists in H3.
        rewrite (proj1 H3), (proj2 H3). auto.
      - injection H2 as <- _. auto. }
    destruct Hl2 as [Hr2 Hd2].
    apply rbind_ok in H as ([b3 s3] & H3 & H).
    rewrite <- Hd2 in Hd. rewrite <- Hr2 in Hr.
    destruct (add_normalization_nodup s2 b3 s3 H3 Hd) as [Hd3 Hr3].
    rewrite <- Hr3 in Hr.
    exact (IH s3 c2 s' c' Hr Hd3 H).
Qed.

Lemma load_data_files_nodup E is_file u files : forall s c s' c',
  List.NoDup (reduction_list s) -> List.NoDup (direct_beam_list s) ->
  load_data_files E is_file u s c files = Ok (s', c') ->
  List.NoDup (reduction_list s') /\ List.NoDup (direct_beam_list s').
Proof.
  induction files as [|[[r_id run_file] conf] rest IH]; intros s c s' c' Hr Hd H.
  - cbn in H. injection H as <- <-. auto.
  - cbn [load_data_files] in H. destruct (forallb is_file (split_plus run_file));
      [|exact (IH s c s' c' Hr Hd H)].
    apply rbind_ok in H as ([[b s1] c1] & Hl & H).
    destruct (load_keeps_lists E s run_file conf b s1 c1 Hl) as [Hr1 Hd1].
    apply rbind_ok in H as ([s2 c2] & H2 & H).
    assert (Hl2 : reduction_list s2 = reduction_list s /\ direct_beam_list s2 = direct_beam_list s).
    { destruct b.
      - apply rbind_ok in H2 as (c3 & _ & H2). apply rbind_ok in H2 as (s3 & H3 & H2).
        apply rbind_ok in H2 as (s4 & H4 & H2).
        injection H2 as <- _. apply update_active_configuration_lists in H3.
        apply calculate_reflectivity_lists in H4.
        rewrite (proj1 H4), (proj2 H4), (proj1 H3), (proj2 H3). auto.
      - injection H2 as <- _. auto. }
    destruct Hl2 as [Hr2 Hd2].
    apply rbind_ok in H as ([b3 s3] & H3 & H).
    rewrite <- Hd2 in Hd. rewrite <- Hr2 in Hr.
    destruct (add_reduction_nodup s2 b3 s3 H3 Hr) as (Hr3 & Hd3 & _).
    rewrite <- Hd3 in Hd.
    exact (IH s3 c2 s' c' Hr3 Hd H).
Qed.

(** [load_data_from_reduced_file] never puts the same measurement twice in
    the reduction list or in the direct beam list: loading a reduced file
    whose runs are already listed (or loading it twice) adds no
    duplicates. *)
Theorem load_data_from_reduced_file_no_duplicates E is_file u read s file_path c s' c' :
  List.NoDup (reduction_list s) -> List.NoDup (direct_beam_list s) ->
  load_data_from_reduced_file E is_file u read s file_path c = Ok (s', c') ->
  List.NoDup (reduction_list s') /\ List.NoDup (direct_beam_list s').
Proof.
  intros Hr Hd H. unfold load_data_from_reduced_file in H.
  apply rbind_ok in H as ([db_files data_files] & _ & H).
  apply rbind_ok in H as ([s1 c1] & H1 & H).
  destruct (load_db_files_nodup E is_file u db_files s c s1 c1 Hr Hd H1) as [Hr1 Hd1].
  exact (load_data_files_nodup E is_file u data_files s1 c1 s' c' Hr1 Hd1 H).
Qed.

(** With its default [configuration=None], [load_data_from_reduced_file]
    raises [AttributeError] when the first direct beam file it lists exists
    and is already in the cache: the cache hit makes it run
    [configuration.normalization = None] on [None]. *)
Theorem load_data_from_reduced_file_cached_without_configuration
    E is_file u read s file_path db_files data_files r_id run_file conf rest i id :
  read file_path None = Ok (db_files, data_files) ->
  db_files = (r_id, run_file, conf) :: rest ->
  is_file run_file = true ->
  cache_search s (canonical_path E run_file) (cache s) = Ok (Some (i, id)) ->
  load_data_from_reduced_file E is_file u read s file_path None = Err AttributeError.
Proof.
  intros Hread -> Hf Hs. unfold load_data_from_reduced_file. rewrite Hread. cbn [rbind].
  cbn [load_db_files]. rewrite Hf.
  rewrite (load_on_hit E s run_file conf i id Hs).
  destruct (load_finish_hit E s (canonical_path E run_file) id conf None None) as (s1 & Hh & _).
  rewrite Hh. reflexivity.
Qed.


Lemma remove_active_from_normalization_spec_witness :
  exists r s', remove_active_from_normalization (set_nexus_data dm_db (Some 2)) = (r, s') /\
    r = 1%Z /\ direct_beam_list s' = [1].
Proof.
  destruct (remove_active_from_normalization (set_nexus_data dm_db (Some 2))) as [r s'] eqn:H.
  exists r, s'. split; [reflexivity|].
  destruct (remove_active_from_normalization_spec _ r s' H)
    as [(_ & _ & Hno) | (id & i & Hx & Hr & Hn & _ & Hs & _)].
  - exfalso. apply (Hno 2 eq_refl). cbn. right. left. reflexivity.
  - cbn in Hx. injection Hx as <-.
    destruct i as [|[|i]]; cbn in Hn; try discriminate; [|destruct i; discriminate].
    split; [exact Hr | rewrite Hs; reflexivity].
Defined.

Lemma normalization_add_remove_round_trip_witness :
  exists s1, add_active_to_normalization dm_db = Ok (true, s1) /\
    remove_active_from_normalization s1 = (2%Z, dm_db).
Proof.
  destruct (normalization_add_remove_round_trip dm_db 0 eq_refl) as (s1 & H1 & _ & H2);
    [cbn; intros [Hx|[Hx|[]]]; discriminate|].
  exists s1. split; [exact H1 | rewrite H2; reflexivity].
Defined.

Lemma set_active_data_from_reduction_list_index_witness :
  set_active_data_from_reduction_list dm_red_sorted 2 = Ok dm_red_sorted /\
  set_active_data_from_reduction_list dm_red_sorted (-3) = Err IndexError /\
  exists s', set_active_data_from_reduction_list dm_red_sorted (-1) = Ok s' /\
    nexus_data s' = Some 1 /\ active_channel s' = Some (1, "Off_Off"%string).
Proof.
  destruct (set_active_data_from_reduction_list_index dm_red_sorted 2) as (H1 & _ & _).
  destruct (set_active_data_from_reduction_list_index dm_red_sorted (-3)) as (_ & H2 & _).
  destruct (set_active_data_from_reduction_list_index dm_red_sorted (-1)) as (_ & _ & H3).
  split; [apply H1; cbn; lia|]. split; [apply H2; cbn; lia|].
  destruct H3 as (id & s' & Hs & Hn & Hx & Ha & _); [cbn; lia|].
  vm_compute in Hn. injection Hn as <-.
  exists s'. split; [exact Hs|]. split; [exact Hx|]. rewrite Ha. vm_compute. reflexivity.
Defined.


Lemma clear_cache_then_load_witness :
  exists s1 c1 s2 c2, load E0 dm0 "a" cfg0 false = Ok (false, s1, c1) /\
    load E0 (clear_cache s1) "a" cfg0 false = Ok (false, s2, c2) /\ cache s2 = [1].
Proof.
  destruct (load E0 dm0 "a" cfg0 false) as [[[b1 s1] c1]|e] eqn:H1;
    [|vm_compute in H1; discriminate].
  pose proof H1 as H1'. vm_compute in H1'. injection H1' as Hb1 Hs1 Hc1. subst b1.
  destruct (load E0 (clear_cache s1) "a" cfg0 false) as [[[b2 s2] c2]|e] eqn:H2;
    [|subst s1; vm_compute in H2; discriminate].
  destruct (clear_cache_then_load E0 s1 "a" cfg0 false b2 s2 c2 H2) as (_ & Hb & _ & Hc & _).
  subst b2. exists s1, c1, s2, c2. split; [reflexivity|]. split; [exact H2|].
  rewrite Hc, <- Hs1. reflexivity.
Defined.

Lemma load_sets_current_file_witness :
  exists b s1 c1, load E0 dm0 "a" cfg0 false = Ok (b, s1, c1) /\
    current_file s1 = Ok (Some "a"%string) /\ current_directory s1 = "/data"%string /\
    current_file_name s1 = Some "a"%string.
Proof.
  destruct (load E0 dm0 "a" cfg0 false) as [[[b s1] c1]|e] eqn:H;
    [|vm_compute in H; discriminate].
  destruct (load_sets_current_file E0 dm0 "a" cfg0 false b s1 c1 H) as (Hf & Hd & Hn & _).
  exists b, s1, c1. auto.
Defined.

Lemma load_keeps_cache_ok_witness :
  exists b s1 c1, load E0 dm0 "a" cfg0 false = Ok (b, s1, c1) /\ cache_ok s1.
Proof.
  destruct (load E0 dm0 "a" cfg0 false) as [[[b s1] c1]|e] eqn:H;
    [|vm_compute in H; discriminate].
  destruct (load_keeps_cache_ok E0 dm0 "a" cfg0 false b s1 c1) as [H0 Hstep].
  exists b, s1, c1. split; [reflexivity|]. exact (Hstep H0 H).
Defined.

Lemma load_force_replaces_witness :
  exists b s1 c1, load E0 dm_cached "a" cfg0 true = Ok (b, s1, c1) /\
    reduction_list s1 = [1] /\ direct_beam_list s1 = [1] /\ ~ In 0 (cache s1).
Proof.
  destruct (load E0 dm_cached "a" cfg0 true) as [[[b s1] c1]|e] eqn:H;
    [|vm_compute in H; discriminate].
  destruct (load_force_replaces E0 dm_cached "a" cfg0 0 0 b s1 c1) as (_ & _ & _ & Hr & Hd & Hn & _).
  - split; [cbn; unfold MAX_CACHE; lia|]. split.
    + intros k [<-|[]]. split; [cbn; lia | vm_compute; discriminate].
    + vm_compute. constructor; [intros []|constructor].
  - reflexivity.
  - constructor; [intros []|constructor].
  - constructor; [intros []|constructor].
  - exact H.
  - exists b, s1, c1. split; [reflexivity|]. rewrite Hr, Hd. split; [reflexivity|]. split; [reflexivity|exact Hn].
Defined.

Lemma find_direct_beam_last_match_witness :
  find_direct_beam dm_two_db (OfChannel data_ch) = Ok (Some (mk_ch "second" "30" 0 None [])).
Proof.
  rewrite (find_direct_beam_last_match dm_two_db data_ch
    [mk_measurement "db1" (PyStr "30") [("Off_Off"%string, mk_ch "first" "30" 0 None [])];
     mk_measurement "db2" (PyInt 30) [("Off_Off"%string, mk_ch "second" "30" 0 None [])]]).
  - vm_compute. reflexivity.
  - repeat constructor.
  - discriminate.
Defined.

Lemma find_best_direct_beam_strict_nearest_witness :
  best_direct_beam E0 dm_near = Ok (Some 12%Z).
Proof.
  destruct (find_best_direct_beam_strict_nearest E0 dm_near (mk_ch "Off_Off" "11" 1 None []) 11
    [mk_measurement "r13" (PyStr "13") [("Off_Off"%string, mk_ch "Off_Off" "13" 0 None [])];
     mk_measurement "r12" (PyStr "12") [("Off_Off"%string, mk_ch "Off_Off" "12" 0 None [])];
     mk_measurement "r10" (PyStr "10") [("Off_Off"%string, mk_ch "Off_Off" "10" 0 None [])]]
    [13; 12; 10]%Z eq_refl eq_refl ltac:(repeat constructor) ltac:(repeat constructor)
    ltac:(vm_compute; discriminate)) as (i & n & Hb & Hn & Hle & Hlt).
  rewrite Hb. f_equal. f_equal.
  specialize (Hle 1 12%Z eq_refl).
  destruct i as [|[|[|i]]]; vm_compute in Hn; try discriminate;
    [| | |destruct i; discriminate].
  - injection Hn as <-. unfold dist in Hle. simpl in Hle. lia.
  - injection Hn as <-. reflexivity.
  - injection Hn as <-. specialize (Hlt 1 12%Z ltac:(lia) eq_refl). unfold dist in Hlt. simpl in Hlt. lia.
Defined.

Lemma determine_asymmetry_states_many_witness :
  determine_asymmetry_states (dm_states ["Off_Off"%string; "On_On"%string; "Off_On"%string]) =
    Ok (Some "Off_Off"%string, Some "Off_On"%string).
Proof.
  destruct (determine_asymmetry_states (dm_states ["Off_Off"%string; "On_On"%string; "Off_On"%string]))
    as [[p m]|e] eqn:H; [|vm_compute in H; discriminate].
  destruct (determine_asymmetry_states_many (dm_states ["Off_Off"%string; "On_On"%string; "Off_On"%string]) p m ltac:(cbn; lia) H) as [Hp Hm].
  rewrite Hp, Hm. reflexivity.
Defined.

Lemma add_active_to_reduction_once_witness :
  exists s' i, add_active_to_reduction dm_red_sorted = Ok (true, s') /\
    List.NoDup (reduction_list s') /\
    reduction_list s' = firstn i [0; 1] ++ 2 :: skipn i [0; 1].
Proof.
  destruct (add_active_to_reduction dm_red_sorted) as [[b s']|e] eqn:H;
    [|vm_compute in H; discriminate].
  destruct (add_active_to_reduction_once dm_red_sorted b s' H) as (_ & Ht & Hnd).
  pose proof H as H'. vm_compute in H'. injection H' as Hb _. subst b.
  destruct (Ht eq_refl) as (id & m & Hx & _ & _ & (i & _ & Hp) & _).
  cbn in Hx. injection Hx as <-.
  exists s', i. split; [reflexivity|]. split; [apply Hnd; cbn; repeat constructor; cbn; intuition lia|].
  exact Hp.
Defined.

Lemma load_data_from_reduced_file_no_duplicates_witness :
  exists s1 c1,
    load_data_from_reduced_file E0 (fun _ => true) (fun m _ => m) read_db_a dm0 "r" None
      = Ok (s1, c1) /\
    List.NoDup (reduction_list s1) /\ List.NoDup (direct_beam_list s1).
Proof.
  destruct (load_data_from_reduced_file E0 (fun _ => true) (fun m _ => m) read_db_a dm0 "r" None)
    as [[s1 c1]|e] eqn:H; [|vm_compute in H; discriminate].
  exists s1, c1. split; [reflexivity|].
  exact (load_data_from_reduced_file_no_duplicates E0 _ _ _ dm0 "r" None s1 c1
           (List.NoDup_nil _) (List.NoDup_nil _) H).
Defined.

Lemma load_data_from_reduced_file_cached_without_configuration_witness :
  exists s1,
    load_data_from_reduced_file E0 (fun _ => true) (fun m _ => m) read_db_a dm0 "r" None
      = Ok (s1, None) /\
    load_data_from_reduced_file E0 (fun _ => true) (fun m _ => m) read_db_a s1 "r" None
      = Err AttributeError.
Proof.
  destruct (load_data_from_reduced_file E0 (fun _ => true) (fun m _ => m) read_db_a dm0 "r" None)
    as [[s1 c1]|e] eqn:H; [|vm_compute in H; discriminate].
  pose proof H as H'. vm_compute in H'. injection H' as Hs1 Hc1. subst s1 c1.
  eexists. split; [reflexivity|].
  apply (load_data_from_reduced_file_cached_without_configuration E0 _ _ read_db_a _ "r"
           [(PyInt 1, "db"%string, cfg0)] [(PyInt 2, "a"%string, cfg0)] (PyInt 1) "db" cfg0 [] 0 0); reflexivity.
Defined.
